(** * csv-chef: the recipe evaluator and the row driver of [recipe/recipe.go]

    A shallow embedding of [recipe.go] and the properties of the evaluator
    ([Argument.GetValue], [processArgs], [processRecipe]), of the validator
    ([ValidateRecipe]), of the builder methods ([AddOutputTo...],
    [AddOperationTo...]) and of the row driver ([Execute], [outputCsvRow]).

    Go maps are stdpp [gmap]s, Go's [int] is a 64-bit integer carried by [Z]
    with its wrap-around written out, Go strings are [string]s (byte
    sequences), a Go [(T, error)] result is an [Outcome], and a run-time
    panic (an index out of range) is the outcome [Panic]. *)

From Stdlib Require Import ZArith String Ascii DecimalString DecimalZ DecimalPos.
From stdpp Require Import gmap strings list fin_maps.

Open Scope Z_scope.

(* ===================================================================== *)
(** ** Integers and their decimal text *)
(* ===================================================================== *)

Definition minInt : Z := - 2 ^ 63.
Definition maxInt : Z := 2 ^ 63 - 1.

(** Two's-complement wrap-around of 64-bit [int] arithmetic. *)
Definition wrap (z : Z) : Z := (z + 2 ^ 63) mod 2 ^ 64 - 2 ^ 63.

(** What [strconv] does with an out-of-range value: it saturates. *)
Definition clamp (z : Z) : Z := Z.max minInt (Z.min maxInt z).

(** [strconv.Itoa], also the [%d] verb of [fmt]. *)
Definition Itoa (z : Z) : string := NilZero.string_of_int (Z.to_int z).

(** The number an all-digit string denotes; [0] for anything else, which is
    the value [strconv.Atoi] returns next to a syntax error. *)
Definition digits (s : string) : Z :=
  match NilEmpty.uint_of_string s with
  | Some d => Z.of_uint d
  | None => 0
  end.

(** The value [strconv.Atoi] returns.  Every call site in [recipe.go]
    discards the error ([n, _ := strconv.Atoi(s)]), so only the value is
    modelled: an optional sign, then decimal digits; [0] on a syntax error
    and the nearest bound on a range error. *)
Definition Atoi (s : string) : Z :=
  match s with
  | String "+"%char r => clamp (digits r)
  | String "-"%char r => clamp (- digits r)
  | _ => clamp (digits s)
  end.

(** [for i := 1; i <= n; i++]: the values [i] takes. *)
Definition upTo (n : Z) : list Z := Z.of_nat <$> seq 1 (Z.to_nat n).

(* ===================================================================== *)
(** ** Results of Go calls *)
(* ===================================================================== *)

(** A call that returns [(T, error)]: a value with a nil error, an error,
    or a run-time panic (indexing a slice out of range). *)
Inductive Outcome (A : Type) : Type :=
  | Ok (a : A)
  | Err (e : string)
  | Panic.

Arguments Ok {A} a.
Arguments Err {A} e.
Arguments Panic {A}.

Definition bindO {A B : Type} (r : Outcome A) (k : A -> Outcome B) : Outcome B :=
  match r with
  | Ok a => k a
  | Err e => Err e
  | Panic => Panic
  end.

Notation "'do' x <- r ; k" := (bindO r (fun x => k))
  (at level 10, x name, r at level 100, k at level 200).

(** [s[i]] on a slice: a panic when [i] is out of range. *)
Definition index {A : Type} (s : list A) (i : nat) : Outcome A :=
  match s !! i with
  | Some a => Ok a
  | None => Panic
  end.

(** The pair [(string, error)] an operation of the library returns. *)
Definition Ret : Type := string * option string.

(* ===================================================================== *)
(** ** Data model *)
(* ===================================================================== *)

(** Modelled from the spec: the declaration of [DataType] is not in
    [recipe.go]; section 3 of the specification lists its five kinds
    ([VariableT] stands for Go's [Variable], a reserved word here). *)
Inductive DataType : Type :=
  | Column
  | VariableT
  | Header
  | Literal
  | Placeholder.

#[global] Instance DataType_eq_dec : EqDecision DataType.
Proof. solve_decision. Defined.

(** The two join modes [processRecipe] switches between.  Their
    declaration is not in [recipe.go] either; [processRecipe] assigns only
    these two, so its [default:] branch ([invalid join mode]) is dead. *)
Inductive JoinMode : Type :=
  | Replace
  | Join.

Record Output : Type := mkOutput {
  Output_Type : DataType;
  Output_Value : string
}.

Record Argument : Type := mkArgument {
  Argument_Type : DataType;
  Argument_Value : string
}.

Record Operation : Type := mkOperation {
  Name : string;
  Arguments : list Argument
}.

Record Recipe : Type := mkRecipe {
  Recipe_Output : Output;
  Pipe : list Operation;
  Comment : string
}.

Record Transformation : Type := mkTransformation {
  Variables : gmap string Recipe;
  Columns : gmap Z Recipe;
  Headers : gmap Z Recipe;
  VariableOrder : list string
}.

Record TransformationResult : Type := mkResult {
  HeaderLines : Z;
  Lines : Z
}.

Record LineContext : Type := mkContext {
  ctx_Variables : gmap string string;
  ctx_Columns : gmap Z string;
  LineNo : Z
}.

(** The zero value of [Recipe], what [m[k]] yields for an absent key: an
    empty pipe and an empty output value.  Which kind the zero [DataType]
    is cannot be read from [recipe.go]; [Execute] reads only the output's
    value. *)
Definition zeroRecipe : Recipe :=
  mkRecipe (mkOutput Column "") [] "".

(** [m[k]] on a Go map: the zero value when [k] is absent. *)
Definition at_key {K V : Type} `{Countable K} (zero : V) (m : gmap K V) (k : K) : V :=
  default zero (m !! k).

Definition NewTransformation : Transformation :=
  mkTransformation ∅ ∅ ∅ [].

Definition getPlaceholderArg : Argument :=
  mkArgument Placeholder "?".

(** [Output.GetValue]: the value a recipe's target holds in a context. *)
Definition Output_GetValue (o : Output) (ctx : LineContext) : Outcome string :=
  if decide (Output_Type o = VariableT) then
    match ctx_Variables ctx !! Output_Value o with
    | None => Err "unrecognized variable"
    | Some value => Ok value
    end
  else if decide (Output_Type o = Column) then
    let column := Atoi (Output_Value o) in
    match ctx_Columns ctx !! column with
    | None => Err "unrecognized/unfilled column number"
    | Some value => Ok value
    end
  else Err "unknown column type".

(* ===================================================================== *)
(** ** What [recipe.go] calls but does not define *)
(* ===================================================================== *)

(** The operation library ([Uppercase], [Add], ...), [strings.ToLower],
    [DataType.String] and the clock are called by [processRecipe] and
    defined elsewhere; the evaluator is parametric in them.  Each library
    function returns Go's pair of a value and an error. *)
Record Library : Type := mkLibrary {
  ToLower : string -> string;
  DataType_String : DataType -> string;
  Uppercase : string -> string;
  Lowercase : string -> string;
  Add : string -> string -> Ret;
  Subtract : string -> string -> Ret;
  Multiply : string -> string -> Ret;
  Divide : string -> string -> Ret;
  Change : string -> string -> string -> Ret;
  ChangeI : string -> string -> string -> Ret;
  IfEmpty : string -> string -> string -> Ret;
  NumberFormat : string -> string -> Ret;
  RemoveDigits : string -> Ret;
  OnlyDigits : string -> Ret;
  Modulus : string -> string -> Ret;
  Trim : string -> Ret;
  FirstChars : string -> string -> Ret;
  LastChars : string -> string -> Ret;
  Repeat : string -> string -> Ret;
  ReplaceString : string -> string -> string -> Ret;
  (** [Today(Now)] and [NowTime(Now)] at the clock's reading. *)
  Today : Ret;
  NowTime : Ret;
  FormatDate : string -> string -> Ret;
  FormatDateF : string -> string -> Ret;
  ReadDate : string -> string -> Ret;
  ReadDateF : string -> string -> Ret;
  SmartDate : string -> Ret;
  IsPast : string -> string -> string -> Ret;
  IsFuture : string -> string -> string -> Ret
}.

(** [for k := range m] visits the keys of a Go map in an order the
    language leaves open.  The order taken at line [n] of the input (at
    [0], before the first row) is a parameter; it is a permutation of the
    keys. *)
Record RangeOrder : Type := mkRangeOrder {
  rangeKeys : Z -> gmap Z Recipe -> list Z;
  rangeKeys_perm : forall n m, rangeKeys n m ≡ₚ (map_to_list m).*1
}.

(** [csv.Writer]: the rows written so far and the number of [Flush]
    calls. *)
Record Writer : Type := mkWriter {
  written : list (list string);
  flushes : nat
}.

(** [csv.Reader.Read] returns a record or an error; past the last element
    it returns [io.EOF]. *)
Inductive ReadResult : Type :=
  | Record_ (row : list string)
  | ReadError (e : string).

(** The sink's failures: whether [writer.Write] of a row, after the rows
    already written, returns an error. *)
Definition WriteFault : Type := list (list string) -> list string -> option string.

Definition Flush (w : Writer) : Writer :=
  mkWriter (written w) (S (flushes w)).

Definition Write (wf : WriteFault) (w : Writer) (row : list string) : Outcome Writer :=
  match wf (written w) row with
  | Some e => Err e
  | None => Ok (mkWriter (written w ++ [row]) (flushes w))
  end.

(* ===================================================================== *)
(** ** The evaluator *)
(* ===================================================================== *)

Section Evaluator.

Variable L : Library.

(** [Argument.GetValue]. *)
Definition GetValue (a : Argument) (context : LineContext) (placeholder : string)
  : Outcome string :=
  match Argument_Type a with
  | Column =>
      let colNum := Atoi (Argument_Value a) in
      match ctx_Columns context !! colNum with
      | None =>
          Err ("column " +:+ Itoa colNum +:+
               " referenced, but it does not exist in the input")
      | Some colValue => Ok colValue
      end
  | VariableT =>
      match ctx_Variables context !! Argument_Value a with
      | None =>
          Err ("variable '" +:+ Argument_Value a +:+
               "' referenced, but it is not defined")
      | Some varValue => Ok varValue
      end
  | Literal => Ok (Argument_Value a)
  | Placeholder => Ok placeholder
  | Header =>
      Err ("argument GetValue not implemented for type " +:+
           DataType_String L Header)
  end.

(** The padding loop of [processArgs]:
    [for len(arguments) < numArgs { arguments = append(arguments, ?) }],
    run for the [numArgs - len(arguments)] turns it takes. *)
Fixpoint padLoop (turns : nat) (arguments : list Argument) : list Argument :=
  match turns with
  | O => arguments
  | S turns' => padLoop turns' (arguments ++ [getPlaceholderArg])
  end.

Definition pad (numArgs : nat) (arguments : list Argument) : list Argument :=
  padLoop (numArgs - length arguments) arguments.

(** The reading loop of [processArgs], [for i := 0; i < numArgs; i++], with
    [todo = numArgs - i] turns left. *)
Fixpoint argsLoop (todo i : nat) (arguments : list Argument)
    (context : LineContext) (placeholder : string) (processedArgs : list string)
  : Outcome (list string) :=
  match todo with
  | O => Ok processedArgs
  | S todo' =>
      do a <- index arguments i;
      do value <- GetValue a context placeholder;
      argsLoop todo' (S i) arguments context placeholder (processedArgs ++ [value])
  end.

Definition processArgs (numArgs : nat) (arguments : list Argument)
    (context : LineContext) (placeholder : string) : Outcome (list string) :=
  argsLoop numArgs 0 (pad numArgs arguments) context placeholder [].

(** The variables [processRecipe] carries from one operation to the next. *)
Record PipeState : Type := mkPipeState {
  placeholder : string;
  value : string;
  mode : JoinMode
}.

Definition setValue (st : PipeState) (v : string) : PipeState :=
  mkPipeState (placeholder st) v (mode st).

(** How the [switch opName] leaves: on to the [switch mode] below it, or,
    by [continue], straight to the next operation. *)
Inductive Flow : Type :=
  | Next (st : PipeState)
  | Continue (st : PipeState).

(** [fmt.Errorf("%s %v", errorPrefix, err)]. *)
Definition bareErr {A : Type} (errorPrefix : string) (r : Outcome A) : Outcome A :=
  match r with
  | Err e => Err (errorPrefix +:+ " " +:+ e)
  | _ => r
  end.

(** [fmt.Errorf("%s %s(): error evaluating arg: %v", errorPrefix, opName, err)]. *)
Definition argErr {A : Type} (errorPrefix opName : string) (r : Outcome A) : Outcome A :=
  match r with
  | Err e => Err (errorPrefix +:+ " " +:+ opName +:+ "(): error evaluating arg: " +:+ e)
  | _ => r
  end.

(** [result, err := F(...)] followed by
    [fmt.Errorf("%s %s(): %v", errorPrefix, opName, err)] when [err != nil]. *)
Definition opErr (errorPrefix opName : string) (r : Ret) : Outcome string :=
  match snd r with
  | Some e => Err (errorPrefix +:+ " " +:+ opName +:+ "(): " +:+ e)
  | None => Ok (fst r)
  end.

(** [result, _ := F(...)]: the error is dropped. *)
Definition noErr (r : Ret) : Outcome string := Ok (fst r).

(** An operation of one argument read through [processArgs]. *)
Definition unary (errorPrefix opName : string) (o : Operation) (context : LineContext)
    (st : PipeState) (call : string -> Outcome string) : Outcome Flow :=
  do args <- argErr errorPrefix opName
               (processArgs 1 (Arguments o) context (placeholder st));
  do a0 <- index args 0;
  do result <- call a0;
  Ok (Next (setValue st result)).

(** An operation that reads [numArgs] arguments and calls the library on
    the first two. *)
Definition binary (errorPrefix opName : string) (numArgs : nat) (o : Operation)
    (context : LineContext) (st : PipeState)
    (call : string -> string -> Outcome string) : Outcome Flow :=
  do args <- argErr errorPrefix opName
               (processArgs numArgs (Arguments o) context (placeholder st));
  do a0 <- index args 0;
  do a1 <- index args 1;
  do result <- call a0 a1;
  Ok (Next (setValue st result)).

(** An operation of three arguments. *)
Definition ternary (errorPrefix opName : string) (o : Operation) (context : LineContext)
    (st : PipeState) (call : string -> string -> string -> Outcome string)
  : Outcome Flow :=
  do args <- argErr errorPrefix opName
               (processArgs 3 (Arguments o) context (placeholder st));
  do a0 <- index args 0;
  do a1 <- index args 1;
  do a2 <- index args 2;
  do result <- call a0 a1 a2;
  Ok (Next (setValue st result)).

(** The [switch opName] of [processRecipe], one branch per [case]. *)
Definition evalOp (errorPrefix : string) (context : LineContext) (o : Operation)
    (st : PipeState) : Outcome Flow :=
  let opName := ToLower L (Name o) in
  let named := String.eqb opName in
  if named "value" then
    do firstArg <- index (Arguments o) 0;
    do argValue <- bareErr errorPrefix (GetValue firstArg context (placeholder st));
    Ok (Next (setValue st argValue))
  else if named "join" then
    do firstArg <- index (Arguments o) 0;
    let st := mkPipeState (placeholder st) (value st) Join in
    do argValue <- bareErr errorPrefix (GetValue firstArg context (placeholder st));
    let st := setValue st argValue in
    if decide (Argument_Type firstArg = Placeholder)
    then Ok (Continue st)
    else Ok (Next st)
  else if named "uppercase" then
    do a <- index (Arguments o) 0;
    do firstArg <- argErr errorPrefix opName (GetValue a context (placeholder st));
    Ok (Next (setValue st (Uppercase L firstArg)))
  else if named "lowercase" then
    do a <- index (Arguments o) 0;
    do firstArg <- argErr errorPrefix opName (GetValue a context (placeholder st));
    Ok (Next (setValue st (Lowercase L firstArg)))
  else if named "add" then
    binary errorPrefix opName 2 o context st
      (fun a0 a1 => opErr errorPrefix opName (Add L a0 a1))
  else if named "subtract" then
    binary errorPrefix opName 2 o context st
      (fun a0 a1 => opErr errorPrefix opName (Subtract L a0 a1))
  else if named "multiply" then
    binary errorPrefix opName 2 o context st
      (fun a0 a1 => opErr errorPrefix opName (Multiply L a0 a1))
  else if named "divide" then
    binary errorPrefix opName 2 o context st
      (fun a0 a1 => opErr errorPrefix opName (Divide L a0 a1))
  else if named "change" then
    ternary errorPrefix opName o context st
      (fun a0 a1 a2 => noErr (Change L a0 a1 a2))
  else if named "changei" then
    ternary errorPrefix opName o context st
      (fun a0 a1 a2 => noErr (ChangeI L a0 a1 a2))
  else if named "ifempty" || named "isempty" then
    ternary errorPrefix opName o context st
      (fun a0 a1 a2 => noErr (IfEmpty L a0 a1 a2))
  else if named "numberformat" then
    binary errorPrefix opName 3 o context st
      (fun a0 a1 => opErr errorPrefix opName (NumberFormat L a0 a1))
  else if named "lineno" then
    Ok (Next (setValue st (Itoa (LineNo context))))
  else if named "removedigits" then
    unary errorPrefix opName o context st (fun a0 => noErr (RemoveDigits L a0))
  else if named "onlydigits" then
    unary errorPrefix opName o context st (fun a0 => noErr (OnlyDigits L a0))
  else if named "mod" then
    binary errorPrefix opName 2 o context st
      (fun a0 a1 => opErr errorPrefix opName (Modulus L a0 a1))
  else if named "trim" then
    unary errorPrefix opName o context st (fun a0 => noErr (Trim L a0))
  else if named "firstchars" then
    binary errorPrefix opName 2 o context st
      (fun a0 a1 => opErr errorPrefix opName (FirstChars L a0 a1))
  else if named "lastchars" then
    binary errorPrefix opName 2 o context st
      (fun a0 a1 => opErr errorPrefix opName (LastChars L a0 a1))
  else if named "repeat" then
    binary errorPrefix opName 2 o context st
      (fun a0 a1 => opErr errorPrefix opName (Repeat L a0 a1))
  else if named "replace" then
    ternary errorPrefix opName o context st
      (fun a0 a1 a2 => noErr (ReplaceString L a0 a1 a2))
  else if named "today" then
    Ok (Next (setValue st (fst (Today L))))
  else if named "now" then
    Ok (Next (setValue st (fst (NowTime L))))
  else if named "formatdate" then
    binary errorPrefix opName 2 o context st
      (fun a0 a1 => opErr errorPrefix opName (FormatDate L a0 a1))
  else if named "formatdatef" then
    binary errorPrefix opName 2 o context st
      (fun a0 a1 => opErr errorPrefix opName (FormatDateF L a0 a1))
  else if named "readdate" then
    binary errorPrefix opName 2 o context st
      (fun a0 a1 => opErr errorPrefix opName (ReadDate L a0 a1))
  else if named "readdatef" then
    binary errorPrefix opName 2 o context st
      (fun a0 a1 => opErr errorPrefix opName (ReadDateF L a0 a1))
  else if named "smartdate" then
    unary errorPrefix opName o context st
      (fun a0 => opErr errorPrefix opName (SmartDate L a0))
  else if named "ispast" then
    ternary errorPrefix opName o context st
      (fun a0 a1 a2 => opErr errorPrefix opName (IsPast L a0 a1 a2))
  else if named "isfuture" then
    ternary errorPrefix opName o context st
      (fun a0 a1 a2 => opErr errorPrefix opName (IsFuture L a0 a1 a2))
  else
    Err (errorPrefix +:+ " error: processing variable, unimplemented operation "
         +:+ Name o).

(** The [switch mode] that closes the loop body. *)
Definition combine (st : PipeState) : PipeState :=
  match mode st with
  | Replace => mkPipeState (value st) (value st) Replace
  | Join => mkPipeState (placeholder st +:+ value st) (value st) Replace
  end.

(** One turn of [for _, o := range variable.Pipe]. *)
Definition stepOp (errorPrefix : string) (context : LineContext) (o : Operation)
    (st : PipeState) : Outcome PipeState :=
  do flow <- evalOp errorPrefix context o st;
  match flow with
  | Continue st' => Ok st'
  | Next st' => Ok (combine st')
  end.

Fixpoint runPipe (errorPrefix : string) (context : LineContext)
    (pipe : list Operation) (st : PipeState) : Outcome PipeState :=
  match pipe with
  | [] => Ok st
  | o :: rest =>
      do st' <- stepOp errorPrefix context o st;
      runPipe errorPrefix context rest st'
  end.

(** [fmt.Sprintf("line %d / %s %s:", context.LineNo, recipeType, variable.Output.Value)]. *)
Definition errorPrefixOf (recipeType : string) (variable : Recipe)
    (context : LineContext) : string :=
  "line " +:+ Itoa (LineNo context) +:+ " / " +:+ recipeType +:+ " " +:+
  Output_Value (Recipe_Output variable) +:+ ":".

Definition initialState : PipeState := mkPipeState "" "" Replace.

Definition processRecipe (recipeType : string) (variable : Recipe)
    (context : LineContext) : Outcome string :=
  do st <- runPipe (errorPrefixOf recipeType variable context) context
             (Pipe variable) initialState;
  Ok (placeholder st).

End Evaluator.

(* ===================================================================== *)
(** ** Building a [Transformation] *)
(* ===================================================================== *)

(** Modelled from the spec: [getOutputForVariable], [getOutputForColumn]
    and [getOutputForHeader] are not in [recipe.go]; by section 3 a
    recipe's output describes its target, and by section 4.3 error
    prefixes print the target as it was written ([column 1], [header 1],
    [variable $name]). *)
Definition getOutputForVariable (variable : string) : Output :=
  mkOutput VariableT variable.

Definition getOutputForColumn (column : string) : Output :=
  mkOutput Column column.

Definition getOutputForHeader (header : string) : Output :=
  mkOutput Header header.

Definition setVariables (t : Transformation) (m : gmap string Recipe) : Transformation :=
  mkTransformation m (Columns t) (Headers t) (VariableOrder t).

Definition setColumns (t : Transformation) (m : gmap Z Recipe) : Transformation :=
  mkTransformation (Variables t) m (Headers t) (VariableOrder t).

Definition setHeaders (t : Transformation) (m : gmap Z Recipe) : Transformation :=
  mkTransformation (Variables t) (Columns t) m (VariableOrder t).

(** The methods mutate their receiver; here they return it, next to the
    error. *)
Definition AddOutputToVariable (variable : string) (t : Transformation)
  : Transformation * option string :=
  match Variables t !! variable with
  | Some _ => (t, Some ("variable " +:+ variable +:+ " already defined"))
  | None =>
      (setVariables t
         (<[variable := mkRecipe (getOutputForVariable variable) [] ""]> (Variables t)),
       None)
  end.

Definition AddOutputToColumn (column : string) (t : Transformation)
  : Transformation * option string :=
  let output := getOutputForColumn column in
  let columnNum := Atoi column in
  match Columns t !! columnNum with
  | Some _ => (t, Some ("column " +:+ Itoa columnNum +:+ " already defined"))
  | None => (setColumns t (<[columnNum := mkRecipe output [] ""]> (Columns t)), None)
  end.

Definition AddOutputToHeader (header : string) (t : Transformation)
  : Transformation * option string :=
  let output := getOutputForHeader header in
  let headerNum := Atoi header in
  match Headers t !! headerNum with
  | Some _ => (t, Some ("header " +:+ Itoa headerNum +:+ " already defined"))
  | None => (setHeaders t (<[headerNum := mkRecipe output [] ""]> (Headers t)), None)
  end.

(** [recipe.Pipe = append(recipe.Pipe, operation)]. *)
Definition appendOperation (recipe : Recipe) (operation : Operation) : Recipe :=
  mkRecipe (Recipe_Output recipe) (Pipe recipe ++ [operation]) (Comment recipe).

Definition AddOperationToVariable (variable : string) (operation : Operation)
    (t : Transformation) : Transformation :=
  let t :=
    match Variables t !! variable with
    | Some _ => t
    | None => fst (AddOutputToVariable variable t)
    end in
  let recipe := at_key zeroRecipe (Variables t) variable in
  setVariables t (<[variable := appendOperation recipe operation]> (Variables t)).

Definition AddOperationToColumn (column : string) (operation : Operation)
    (t : Transformation) : Transformation :=
  let columnNumber := Atoi column in
  let t :=
    match Columns t !! columnNumber with
    | Some _ => t
    | None => fst (AddOutputToColumn column t)
    end in
  let recipe := at_key zeroRecipe (Columns t) columnNumber in
  setColumns t (<[columnNumber := appendOperation recipe operation]> (Columns t)).

Definition AddOperationToHeader (header : string) (operation : Operation)
    (t : Transformation) : Transformation :=
  let headerNumber := Atoi header in
  let t :=
    match Headers t !! headerNumber with
    | Some _ => t
    | None => fst (AddOutputToHeader header t)
    end in
  let recipe := at_key zeroRecipe (Headers t) headerNumber in
  setHeaders t (<[headerNumber := appendOperation recipe operation]> (Headers t)).

Definition AddOperationByType (targetType : DataType) (target : string)
    (operation : Operation) (t : Transformation) : Transformation :=
  match targetType with
  | VariableT => AddOperationToVariable target operation t
  | Column => AddOperationToColumn target operation t
  | Header => AddOperationToHeader target operation t
  | _ => t
  end.

(** A call of one of the builder methods, and a sequence of them run on a
    transformation. *)
Inductive BuildCall : Type :=
  | CallAddOutputToVariable (variable : string)
  | CallAddOutputToColumn (column : string)
  | CallAddOutputToHeader (header : string)
  | CallAddOperationToVariable (variable : string) (operation : Operation)
  | CallAddOperationToColumn (column : string) (operation : Operation)
  | CallAddOperationToHeader (header : string) (operation : Operation)
  | CallAddOperationByType (targetType : DataType) (target : string)
      (operation : Operation).

Definition runCall (c : BuildCall) (t : Transformation) : Transformation :=
  match c with
  | CallAddOutputToVariable v => fst (AddOutputToVariable v t)
  | CallAddOutputToColumn c => fst (AddOutputToColumn c t)
  | CallAddOutputToHeader h => fst (AddOutputToHeader h t)
  | CallAddOperationToVariable v o => AddOperationToVariable v o t
  | CallAddOperationToColumn c o => AddOperationToColumn c o t
  | CallAddOperationToHeader h o => AddOperationToHeader h o t
  | CallAddOperationByType ty target o => AddOperationByType ty target o t
  end.

Definition runCalls (calls : list BuildCall) (t : Transformation) : Transformation :=
  foldl (fun t c => runCall c t) t calls.

(* ===================================================================== *)
(** ** The validator *)
(* ===================================================================== *)

Definition missingIn (columns : gmap Z Recipe) (k : Z) : bool :=
  bool_decide (columns !! k = None).

Definition ValidateRecipe (R : RangeOrder) (t : Transformation) : option string :=
  let numColumns := Z.of_nat (size (Columns t)) in
  if numColumns =? 0 then Some "no column recipes provided"
  else
    match find (missingIn (Columns t)) (upTo numColumns) with
    | Some c => Some ("missing column definition for column #" +:+ Itoa c)
    | None =>
        match find (missingIn (Columns t)) (rangeKeys R 0 (Headers t)) with
        | Some h =>
            Some ("found header for column " +:+ Itoa h +:+
                  ", but no recipe for column " +:+ Itoa h)
        | None => None
        end
    end.

(* ===================================================================== *)
(** ** The row driver *)
(* ===================================================================== *)

Section Driver.

Variable L : Library.
Variable R : RangeOrder.
Variable wf : WriteFault.

(** [for i, v := range row { context.Columns[i+1] = v }], from index [i]. *)
Fixpoint loadColumns (i : Z) (row : list string) (columns : gmap Z string)
  : gmap Z string :=
  match row with
  | [] => columns
  | v :: rest => loadColumns (i + 1) rest (<[i + 1 := v]> columns)
  end.

Definition newContext (row : list string) (linesRead : Z) : LineContext :=
  mkContext ∅ (loadColumns 0 row ∅) linesRead.

Definition bindVariable (context : LineContext) (variableName placeholder : string)
  : LineContext :=
  mkContext (<[variableName := placeholder]> (ctx_Variables context))
            (ctx_Columns context) (LineNo context).

(** [for _, v := range t.VariableOrder]. *)
Fixpoint processVariables (t : Transformation) (order : list string)
    (context : LineContext) : Outcome LineContext :=
  match order with
  | [] => Ok context
  | v :: rest =>
      let variableRecipe := at_key zeroRecipe (Variables t) v in
      let variableName := Output_Value (Recipe_Output variableRecipe) in
      do placeholder <- processRecipe L "variable" variableRecipe context;
      processVariables t rest (bindVariable context variableName placeholder)
  end.

(** The header row before the header recipes run: the input's field, or
    [column i] past the end of the row ([row[i-1]] is read under the guard
    [i <= len(row)], with [i >= 1]). *)
Definition seedValue (row : list string) (i : Z) : string :=
  if i <=? Z.of_nat (length row)
  then default "" (row !! Z.to_nat (i - 1))
  else "column " +:+ Itoa i.

Definition seedOutput (numColumns : Z) (row : list string) : gmap Z string :=
  foldl (fun output i => <[i := seedValue row i]> output) ∅ (upTo numColumns).

(** [for h := range t.Headers], over the keys in the order taken. *)
Fixpoint headersLoop (t : Transformation) (keys : list Z) (context : LineContext)
    (output : gmap Z string) : Outcome (gmap Z string) :=
  match keys with
  | [] => Ok output
  | h :: rest =>
      let headerRecipe := at_key zeroRecipe (Headers t) h in
      do placeholder <- processRecipe L "header" headerRecipe context;
      headersLoop t rest context (<[h := placeholder]> output)
  end.

(** [for c := range t.Columns]. *)
Fixpoint columnsLoop (t : Transformation) (keys : list Z) (context : LineContext)
    (output : gmap Z string) : Outcome (gmap Z string) :=
  match keys with
  | [] => Ok output
  | c :: rest =>
      let columnRecipe := at_key zeroRecipe (Columns t) c in
      do placeholder <- processRecipe L "column" columnRecipe context;
      columnsLoop t rest context (<[c := placeholder]> output)
  end.

Definition outputRow (numColumns : Z) (output : gmap Z string) : list string :=
  at_key "" output <$> upTo numColumns.

Definition outputCsvRow (numColumns : Z) (output : gmap Z string) (writer : Writer)
  : Outcome Writer :=
  Write wf writer (outputRow numColumns output).

(** [if processHeader && linesRead == 1 { ... }]. *)
Definition headerBranch (t : Transformation) (processHeader : bool) (numColumns : Z)
    (row : list string) (linesRead : Z) (context : LineContext) (writer : Writer)
  : Outcome Writer :=
  if processHeader && (linesRead =? 1) then
    do output <- headersLoop t (rangeKeys R linesRead (Headers t)) context
                   (seedOutput numColumns row);
    outputCsvRow numColumns output writer
  else Ok writer.

(** [if !processHeader || linesRead > 1 { ... }]. *)
Definition dataBranch (t : Transformation) (processHeader : bool) (numColumns : Z)
    (linesRead : Z) (context : LineContext) (writer : Writer) : Outcome Writer :=
  if negb processHeader || (1 <? linesRead) then
    do output <- columnsLoop t (rangeKeys R linesRead (Columns t)) context ∅;
    outputCsvRow numColumns output writer
  else Ok writer.

(** Where a failed step leaves the writer: as it was before the step. *)
Definition orKeep (r : Outcome Writer) (writer : Writer) : Outcome unit * Writer :=
  match r with
  | Ok w => (Ok tt, w)
  | Err e => (Err e, writer)
  | Panic => (Panic, writer)
  end.

(** The body of the [for] loop of [Execute], after [linesRead++]. *)
Definition processRow (t : Transformation) (processHeader : bool) (numColumns : Z)
    (row : list string) (linesRead : Z) (writer : Writer) : Outcome unit * Writer :=
  match processVariables t (VariableOrder t) (newContext row linesRead) with
  | Ok context =>
      match orKeep (headerBranch t processHeader numColumns row linesRead
                      context writer) writer with
      | (Ok _, w1) =>
          match orKeep (dataBranch t processHeader numColumns linesRead
                          context w1) w1 with
          | (Ok _, w2) =>
              (Ok tt, if Z.rem linesRead 100 =? 0 then Flush w2 else w2)
          | failed => failed
          end
      | failed => failed
      end
  | Err e => (Err e, writer)
  | Panic => (Panic, writer)
  end.

(** The [for] loop of [Execute]: the number of lines read at its end, what
    is left of the input, and the writer. *)
Fixpoint rowLoop (t : Transformation) (processHeader : bool) (lineLimit numColumns : Z)
    (reader : list ReadResult) (linesRead : Z) (writer : Writer)
  : Outcome Z * list ReadResult * Writer :=
  if (0 <? lineLimit) && (lineLimit <=? linesRead) then (Ok linesRead, reader, writer)
  else
    match reader with
    | [] => (Ok linesRead, [], writer)
    | ReadError e :: rest => (Err e, rest, writer)
    | Record_ row :: rest =>
        let linesRead := wrap (linesRead + 1) in
        match processRow t processHeader numColumns row linesRead writer with
        | (Ok _, w) => rowLoop t processHeader lineLimit numColumns rest linesRead w
        | (Err e, w) => (Err e, rest, w)
        | (Panic, w) => (Panic, rest, w)
        end
    end.

(** [Execute]: the result, what is left of the input, and the writer after
    the deferred [Flush]. *)
Definition Execute (t : Transformation) (reader : list ReadResult) (writer : Writer)
    (processHeader : bool) (lineLimit : Z)
  : Outcome TransformationResult * list ReadResult * Writer :=
  let numColumns := Z.of_nat (size (Columns t)) in
  match ValidateRecipe R t with
  | Some err => (Err err, reader, Flush writer)
  | None =>
      let '(r, rest, w) :=
        rowLoop t processHeader lineLimit numColumns reader 0 writer in
      let headerLines := if processHeader then 1 else 0 in
      (do linesRead <- r;
       Ok (mkResult headerLines (wrap (linesRead - headerLines))),
       rest, Flush w)
  end.

End Driver.

(* ===================================================================== *)
(** ** An environment to run examples in *)
(* ===================================================================== *)

Definition lowerChar (c : ascii) : ascii :=
  let n := nat_of_ascii c in
  if ((65 <=? n) && (n <=? 90))%nat then ascii_of_nat (n + 32) else c.

Definition upperChar (c : ascii) : ascii :=
  let n := nat_of_ascii c in
  if ((97 <=? n) && (n <=? 122))%nat then ascii_of_nat (n - 32) else c.

Fixpoint mapString (f : ascii -> ascii) (s : string) : string :=
  match s with
  | EmptyString => EmptyString
  | String c r => String (f c) (mapString f r)
  end.

Definition unmodelled : Ret := (""%string, Some "not modelled"%string).

(** A library that maps case on ASCII letters, as Go's [strings.ToLower],
    [Uppercase] and [Lowercase] do on ASCII text, and answers every other
    call with an error.  The examples below run [value], [join],
    [uppercase] and [lowercase] only; the theorems hold for every
    library. *)
Definition asciiLibrary : Library := {|
  ToLower := mapString lowerChar;
  DataType_String := fun _ => "DataType"%string;
  Uppercase := mapString upperChar;
  Lowercase := mapString lowerChar;
  Add := fun _ _ => unmodelled;
  Subtract := fun _ _ => unmodelled;
  Multiply := fun _ _ => unmodelled;
  Divide := fun _ _ => unmodelled;
  Change := fun _ _ _ => unmodelled;
  ChangeI := fun _ _ _ => unmodelled;
  IfEmpty := fun _ _ _ => unmodelled;
  NumberFormat := fun _ _ => unmodelled;
  RemoveDigits := fun _ => unmodelled;
  OnlyDigits := fun _ => unmodelled;
  Modulus := fun _ _ => unmodelled;
  Trim := fun _ => unmodelled;
  FirstChars := fun _ _ => unmodelled;
  LastChars := fun _ _ => unmodelled;
  Repeat := fun _ _ => unmodelled;
  ReplaceString := fun _ _ _ => unmodelled;
  Today := unmodelled;
  NowTime := unmodelled;
  FormatDate := fun _ _ => unmodelled;
  FormatDateF := fun _ _ => unmodelled;
  ReadDate := fun _ _ => unmodelled;
  ReadDateF := fun _ _ => unmodelled;
  SmartDate := fun _ => unmodelled;
  IsPast := fun _ _ _ => unmodelled;
  IsFuture := fun _ _ _ => unmodelled
|}.

(** One admissible order of [range]: the order of [map_to_list]. *)
Definition listOrder : RangeOrder :=
  mkRangeOrder (fun _ m => (map_to_list m).*1) (fun _ _ => reflexivity _).

(** A sink that never fails. *)
Definition noFault : WriteFault := fun _ _ => None.

Definition emptyWriter : Writer := mkWriter [] 0.

(** The operations a recipe text lowers to in the examples. *)
Definition opValue (a : Argument) : Operation := mkOperation "value" [a].
Definition opJoin (a : Argument) : Operation := mkOperation "join" [a].
Definition colArg (n : string) : Argument := mkArgument Column n.
Definition varArg (name : string) : Argument := mkArgument VariableT name.
Definition litArg (s : string) : Argument := mkArgument Literal s.

(** The context of a first row [a,b]. *)
Definition rowAB : LineContext := newContext ["a"; "b"]%string 1.

(** The pipe of [1 <- 1 -> join(3)] and of [1 <- uppercase($foo)], two
    recipes of [parse_execute_test.go]. *)
Definition joinColumn3 : Recipe :=
  mkRecipe (getOutputForColumn "1") ([opValue (colArg "1")] ++ opJoin (colArg "3") :: []) "".

Definition uppercaseFoo : Recipe :=
  mkRecipe (getOutputForColumn "1") ([] ++ mkOperation "uppercase" [varArg "$foo"] :: []) "".

(** The recipe [1 <- "hi"], [!3 <- "lala"] of [parse_execute_test.go]: a
    header without its column. *)
Definition orphanHeader : Transformation :=
  AddOperationByType Header "3" (opValue (litArg "lala"))
    (AddOperationByType Column "1" (opValue (litArg "hi")) NewTransformation).

(** The recipe [1 <- 1], [2 <- 1], [3 <- 1] of [parse_execute_test.go],
    with the header [!2 <- "H2"] added. *)
Definition threeColumns : Transformation :=
  AddOperationByType Header "2" (opValue (litArg "H2"))
    (AddOperationByType Column "3" (opValue (colArg "1"))
       (AddOperationByType Column "2" (opValue (colArg "1"))
          (AddOperationByType Column "1" (opValue (colArg "1")) NewTransformation))).

(** The recipe [1 <- 2], [2 <- 1] of [parse_execute_test.go]. *)
Definition swapColumns : Transformation :=
  AddOperationByType Column "2" (opValue (colArg "1"))
    (AddOperationByType Column "1" (opValue (colArg "2")) NewTransformation).

(** The recipe [$a <- "x"], [1 <- $a], built with the builder methods
    alone. *)
Definition variableThenColumn : Transformation :=
  AddOperationByType Column "1" (opValue (varArg "$a"))
    (AddOperationByType VariableT "$a" (opValue (litArg "x")) NewTransformation).

(** The recipe [1 <- 1], built with the builder methods. *)
Definition oneColumn : Transformation :=
  AddOperationByType Column "1" (opValue (colArg "1")) NewTransformation.

(* ===================================================================== *)
(** ** Vocabulary of the properties *)
(* ===================================================================== *)

(** What an operation read through [processArgs] can do: set [value] and
    go on to the mode switch, or fail with an error; it neither panics nor
    skips the mode switch. *)
Definition setsValue (st : PipeState) (r : Outcome Flow) : Prop :=
  match r with
  | Ok (Next st') => exists v, st' = setValue st v
  | Ok (Continue _) => False
  | Err _ => True
  | Panic => False
  end.

(** The operations that index [o.Arguments[0]] themselves. *)
Definition indexesFirst (opName : string) : Prop :=
  opName = "value"%string \/ opName = "join"%string \/
  opName = "uppercase"%string \/ opName = "lowercase"%string.

(** The operations that read their arguments through [processArgs], with
    the [numArgs] each passes. *)
Definition paddedArity : list (string * nat) :=
  [("add", 2); ("subtract", 2); ("multiply", 2); ("divide", 2);
   ("change", 3); ("changei", 3); ("ifempty", 3); ("isempty", 3);
   ("numberformat", 3); ("removedigits", 1); ("onlydigits", 1); ("mod", 2);
   ("trim", 1); ("firstchars", 2); ("lastchars", 2); ("repeat", 2);
   ("replace", 3); ("formatdate", 2); ("formatdatef", 2); ("readdate", 2);
   ("readdatef", 2); ("smartdate", 1); ("ispast", 3); ("isfuture", 3)]%string%nat.

(** Resolving the arguments of [o] fails with the error [e]: the first
    argument of an operation that reads it itself, or one of the padded
    arguments of an operation that goes through [processArgs]. *)
Inductive ArgumentFails (L : Library) (context : LineContext) (placeholder : string)
    (o : Operation) (e : string) : Prop :=
  | FirstFails (a : Argument) (rest : list Argument) :
      indexesFirst (ToLower L (Name o)) ->
      Arguments o = a :: rest ->
      GetValue L a context placeholder = Err e ->
      ArgumentFails L context placeholder o e
  | PaddedFails (numArgs : nat) :
      In (ToLower L (Name o), numArgs) paddedArity ->
      processArgs L numArgs (Arguments o) context placeholder = Err e ->
      ArgumentFails L context placeholder o e.

(** The error [processRecipe] reports for a failed argument: bare after
    the prefix for [value] and [join], under the operation's name for the
    others. *)
Definition argumentErrorText (errorPrefix opName e : string) : string :=
  errorPrefix +:+ " " +:+
  (if String.eqb opName "value" || String.eqb opName "join"
   then e
   else opName +:+ "(): error evaluating arg: " +:+ e).

(** The names the [switch] of [processRecipe] has a [case] for. *)
Definition catalog : list string :=
  ["value"; "join"; "uppercase"; "lowercase"; "add"; "subtract"; "multiply";
   "divide"; "change"; "changei"; "ifempty"; "isempty"; "numberformat";
   "lineno"; "removedigits"; "onlydigits"; "mod"; "trim"; "firstchars";
   "lastchars"; "repeat"; "replace"; "today"; "now"; "formatdate";
   "formatdatef"; "readdate"; "readdatef"; "smartdate"; "ispast";
   "isfuture"]%string.

(** One recipe continues another: the same target, and a pipe that
    starts with the other's. *)
Definition extends (r' r : Recipe) : Prop :=
  Recipe_Output r' = Recipe_Output r /\ Comment r' = Comment r /\
  exists added, Pipe r' = Pipe r ++ added.

(** One map of recipes continues another: it keeps every key, with a
    recipe that continues the one it had. *)
Definition grows {K : Type} `{Countable K} (m' m : gmap K Recipe) : Prop :=
  forall k r, m !! k = Some r -> exists r', m' !! k = Some r' /\ extends r' r.

(** ** Proof tools *)

(** Splits [evalOp] into the branches of its [switch]. *)
Ltac split_switch :=
  unfold evalOp;
  repeat lazymatch goal with
  | |- context [if ?c then _ else _] =>
      lazymatch c with
      | String.eqb ?a ?b =>
          let E := fresh "Hname" in
          destruct (String.eqb a b) eqn:E;
          [apply String.eqb_eq in E|clear E]
      | (String.eqb ?a ?b || String.eqb ?a ?b')%bool =>
          let E := fresh "Hname" in
          destruct (String.eqb a b || String.eqb a b')%bool eqn:E;
          [apply orb_true_iff in E; rewrite !String.eqb_eq in E|clear E]
      end
  end.

Ltac pick_branch H :=
  unfold evalOp; rewrite H;
  cbn [String.eqb Ascii.eqb Bool.eqb orb andb].


(* ===================================================================== *)
(** * Properties *)
(* ===================================================================== *)

(** ** Decimal text *)

Lemma wrap_small z : minInt <= z <= maxInt -> wrap z = z.
Proof.
  unfold wrap, minInt, maxInt. intros H.
  rewrite Z.mod_small; lia.
Qed.

Lemma clamp_small z : minInt <= z <= maxInt -> clamp z = z.
Proof. unfold clamp. lia. Qed.

Lemma uint_of_string_sign c r :
  c = "+"%char \/ c = "-"%char -> NilEmpty.uint_of_string (String c r) = None.
Proof.
  intros [-> | ->]; simpl;
    destruct (NilEmpty.uint_of_string r); reflexivity.
Qed.

Lemma digits_to_uint p :
  digits (NilEmpty.string_of_uint (Pos.to_uint p)) = Z.pos p.
Proof.
  unfold digits. rewrite NilEmpty.usu.
  unfold Z.of_uint. now rewrite DecimalPos.Unsigned.of_to.
Qed.

Lemma string_of_uint_no_sign d c r :
  NilEmpty.string_of_uint d = String c r -> c <> "+"%char /\ c <> "-"%char.
Proof.
  intros E. pose proof (NilEmpty.usu d) as U. rewrite E in U.
  split; intros ->; rewrite uint_of_string_sign in U; auto; discriminate.
Qed.

Lemma Itoa_pos p : Itoa (Z.pos p) = NilEmpty.string_of_uint (Pos.to_uint p).
Proof.
  unfold Itoa. simpl. unfold NilZero.string_of_uint.
  destruct (Pos.to_uint p) eqn:E; try reflexivity.
  exfalso. revert E. apply DecimalPos.Unsigned.to_uint_nonnil.
Qed.

Lemma Atoi_unsigned s :
  (forall c r, s = String c r -> c <> "+"%char /\ c <> "-"%char) ->
  Atoi s = clamp (digits s).
Proof.
  intros H. destruct s as [|c r]; [reflexivity|].
  destruct (H c r eq_refl) as [Hp Hm].
  unfold Atoi.
  destruct c as [[] [] [] [] [] [] [] []]; try reflexivity; congruence.
Qed.

(** Reading back the decimal text of a non-negative [int] gives the
    number: the column number an argument carries as text is the number
    the evaluator looks up. *)
Lemma Atoi_Itoa n : 0 <= n <= maxInt -> Atoi (Itoa n) = n.
Proof.
  intros Hn. destruct n as [|p|p]; [reflexivity| |lia].
  rewrite Itoa_pos, Atoi_unsigned.
  - rewrite digits_to_uint. apply clamp_small. unfold minInt. lia.
  - intros c r E. eapply string_of_uint_no_sign; eauto.
Qed.

(** ** Argument resolution *)

(** C3. Resolving an argument against a context and a placeholder: a
    [Column] argument whose text reads as [n] returns [context.Columns[n]]
    and fails with [column n referenced, but it does not exist in the
    input] when [n] is absent; a [Variable] argument returns
    [context.Variables[name]] and fails with [variable 'name' referenced,
    but it is not defined] when unbound; a [Literal] returns its text and
    a [Placeholder] the current placeholder, neither ever failing. *)
Theorem GetValue_by_kind (L : Library) (context : LineContext)
    (placeholder text : string) :
  GetValue L (mkArgument Column text) context placeholder =
    match ctx_Columns context !! Atoi text with
    | Some v => Ok v
    | None =>
        Err ("column " +:+ Itoa (Atoi text) +:+
             " referenced, but it does not exist in the input")
    end
  /\ GetValue L (mkArgument VariableT text) context placeholder =
    match ctx_Variables context !! text with
    | Some v => Ok v
    | None =>
        Err ("variable '" +:+ text +:+ "' referenced, but it is not defined")
    end
  /\ GetValue L (mkArgument Literal text) context placeholder = Ok text
  /\ GetValue L (mkArgument Placeholder text) context placeholder = Ok placeholder.
Proof.
  unfold GetValue; simpl. repeat split.
Qed.

(** The same for a column number written in decimal, as the parser writes
    it: [Column(n)] reads [context.Columns[n]]. *)
Lemma GetValue_Column_decimal (L : Library) (context : LineContext)
    (placeholder : string) (n : Z) :
  0 <= n <= maxInt ->
  GetValue L (mkArgument Column (Itoa n)) context placeholder =
    match ctx_Columns context !! n with
    | Some v => Ok v
    | None =>
        Err ("column " +:+ Itoa n +:+
             " referenced, but it does not exist in the input")
    end.
Proof.
  intros Hn. unfold GetValue; simpl.
  rewrite Atoi_Itoa by assumption. reflexivity.
Qed.

Lemma GetValue_no_panic (L : Library) a context placeholder :
  GetValue L a context placeholder <> Panic.
Proof.
  unfold GetValue. destruct (Argument_Type a); try discriminate.
  - destruct (ctx_Columns context !! _); discriminate.
  - destruct (ctx_Variables context !! _); discriminate.
Qed.

Lemma GetValue_Placeholder (L : Library) a context placeholder :
  Argument_Type a = Placeholder -> GetValue L a context placeholder = Ok placeholder.
Proof. unfold GetValue. intros ->. reflexivity. Qed.

(** ** Arity padding in [processArgs] *)

Lemma padLoop_app turns arguments :
  padLoop turns arguments = arguments ++ replicate turns getPlaceholderArg.
Proof.
  revert arguments. induction turns as [|k IH]; intros arguments; simpl.
  - now rewrite app_nil_r.
  - rewrite IH, <- app_assoc. reflexivity.
Qed.

Lemma pad_app numArgs arguments :
  pad numArgs arguments =
  arguments ++ replicate (numArgs - length arguments) getPlaceholderArg.
Proof. apply padLoop_app. Qed.

Lemma pad_length numArgs arguments :
  (numArgs <= length (pad numArgs arguments))%nat.
Proof. rewrite pad_app, length_app, length_replicate. lia. Qed.

Lemma pad_lookup_given numArgs arguments i a :
  arguments !! i = Some a -> pad numArgs arguments !! i = Some a.
Proof. intros H. rewrite pad_app. now apply lookup_app_l_Some. Qed.

Lemma pad_lookup_missing numArgs arguments i :
  (length arguments <= i < numArgs)%nat ->
  pad numArgs arguments !! i = Some getPlaceholderArg.
Proof.
  intros H. rewrite pad_app, lookup_app_r by lia.
  apply lookup_replicate_2. lia.
Qed.

(** The reading loop stays inside the slice when the slice is long enough,
    and returns one value per position read. *)
Lemma argsLoop_spec (L : Library) context placeholder arguments :
  forall todo i processedArgs,
    (i + todo <= length arguments)%nat ->
    match argsLoop L todo i arguments context placeholder processedArgs with
    | Ok values =>
        exists new, values = processedArgs ++ new /\
          Forall2 (fun a v => GetValue L a context placeholder = Ok v)
                  (take todo (drop i arguments)) new
    | Err e =>
        exists j a, (j < todo)%nat /\ arguments !! (i + j)%nat = Some a /\
          GetValue L a context placeholder = Err e
    | Panic => False
    end.
Proof.
  induction todo as [|todo IH]; intros i acc Hlen; simpl.
  - exists []. rewrite app_nil_r. split; [reflexivity|constructor].
  - unfold index.
    destruct (arguments !! i) as [a|] eqn:Ha; simpl.
    2:{ apply lookup_ge_None in Ha. lia. }
    destruct (GetValue L a context placeholder) as [v|e|] eqn:Hv; simpl.
    + specialize (IH (S i) (acc ++ [v]) ltac:(lia)).
      destruct (argsLoop L todo (S i) arguments context placeholder (acc ++ [v]))
        as [values|e|]; [| |assumption].
      * destruct IH as (new & -> & HF). exists (v :: new).
        split; [now rewrite <- app_assoc|].
        rewrite (drop_S _ _ _ Ha). simpl. constructor; assumption.
      * destruct IH as (j & a' & Hj & Ha' & He).
        exists (S j), a'. repeat split; [lia| |assumption].
        now replace (i + S j)%nat with (S i + j)%nat by lia.
    + exists 0%nat, a. rewrite Nat.add_0_r. repeat split; [lia|assumption..].
    + now apply GetValue_no_panic in Hv.
Qed.

(** [processArgs] never indexes past its padded slice; it returns exactly
    [numArgs] values, the values of the first [numArgs] padded arguments,
    or the error of one of them. *)
Lemma processArgs_spec (L : Library) numArgs arguments context placeholder :
  match processArgs L numArgs arguments context placeholder with
  | Ok values =>
      Forall2 (fun a v => GetValue L a context placeholder = Ok v)
              (take numArgs (pad numArgs arguments)) values
  | Err e =>
      exists j a, (j < numArgs)%nat /\ pad numArgs arguments !! j = Some a /\
        GetValue L a context placeholder = Err e
  | Panic => False
  end.
Proof.
  unfold processArgs.
  pose proof (argsLoop_spec L context placeholder (pad numArgs arguments)
                numArgs 0 [] (pad_length numArgs arguments)) as H.
  destruct (argsLoop L numArgs 0 (pad numArgs arguments) context placeholder [])
    as [values|e|]; [| |assumption].
  - destruct H as (new & -> & HF). exact HF.
  - exact H.
Qed.

Lemma processArgs_no_panic (L : Library) numArgs arguments context placeholder :
  processArgs L numArgs arguments context placeholder <> Panic.
Proof.
  intros H. pose proof (processArgs_spec L numArgs arguments context placeholder) as S.
  now rewrite H in S.
Qed.

Lemma processArgs_length (L : Library) numArgs arguments context placeholder values :
  processArgs L numArgs arguments context placeholder = Ok values ->
  length values = numArgs.
Proof.
  intros H. pose proof (processArgs_spec L numArgs arguments context placeholder) as S.
  rewrite H in S. apply Forall2_length in S. rewrite <- S, length_take.
  pose proof (pad_length numArgs arguments). lia.
Qed.

(** A missing trailing argument evaluates to the current placeholder. *)
Lemma processArgs_missing (L : Library) numArgs arguments context placeholder values i :
  processArgs L numArgs arguments context placeholder = Ok values ->
  (length arguments <= i < numArgs)%nat ->
  values !! i = Some placeholder.
Proof.
  intros H Hi. pose proof (processArgs_spec L numArgs arguments context placeholder) as S.
  rewrite H in S.
  assert (Ha : take numArgs (pad numArgs arguments) !! i = Some getPlaceholderArg).
  { rewrite lookup_take_lt by lia. now apply pad_lookup_missing. }
  destruct (Forall2_lookup_l _ _ _ _ _ S Ha) as (v & Hv & Hg).
  rewrite GetValue_Placeholder in Hg by reflexivity. congruence.
Qed.

(** A supplied argument below the arity is read as it is. *)
Lemma processArgs_given (L : Library) numArgs arguments context placeholder values i a :
  processArgs L numArgs arguments context placeholder = Ok values ->
  (i < numArgs)%nat -> arguments !! i = Some a ->
  exists v, values !! i = Some v /\ GetValue L a context placeholder = Ok v.
Proof.
  intros H Hi Ha. pose proof (processArgs_spec L numArgs arguments context placeholder) as S.
  rewrite H in S.
  assert (Hp : take numArgs (pad numArgs arguments) !! i = Some a).
  { rewrite lookup_take_lt by lia. now apply pad_lookup_given. }
  destruct (Forall2_lookup_l _ _ _ _ _ S Hp) as (v & Hv & Hg). eauto.
Qed.

(** ** The shape of one evaluation step *)

Lemma opErr_no_panic prefix opName r : opErr prefix opName r <> Panic.
Proof. unfold opErr. destruct (snd r); discriminate. Qed.

Lemma noErr_no_panic r : noErr r <> Panic.
Proof. discriminate. Qed.

Lemma index_lt {A} (s : list A) i : (i < length s)%nat -> exists a, index s i = Ok a.
Proof.
  intros H. unfold index. destruct (lookup_lt_is_Some_2 s i H) as [a ->]. eauto.
Qed.

Lemma unary_shape (L : Library) prefix opName o context st call :
  (forall a0, call a0 <> Panic) ->
  setsValue st (unary L prefix opName o context st call).
Proof.
  intros Hc. unfold unary.
  destruct (processArgs L 1 (Arguments o) context (placeholder st)) as [args|e|] eqn:Ha;
    simpl; [|exact I|now apply processArgs_no_panic in Ha].
  apply processArgs_length in Ha.
  destruct (index_lt args 0 ltac:(lia)) as [a0 ->]. simpl.
  specialize (Hc a0). destruct (call a0); simpl; eauto.
Qed.

Lemma binary_shape (L : Library) prefix opName numArgs o context st call :
  (2 <= numArgs)%nat ->
  (forall a0 a1, call a0 a1 <> Panic) ->
  setsValue st (binary L prefix opName numArgs o context st call).
Proof.
  intros Hn Hc. unfold binary.
  destruct (processArgs L numArgs (Arguments o) context (placeholder st))
    as [args|e|] eqn:Ha;
    simpl; [|exact I|now apply processArgs_no_panic in Ha].
  apply processArgs_length in Ha.
  destruct (index_lt args 0 ltac:(lia)) as [a0 ->].
  destruct (index_lt args 1 ltac:(lia)) as [a1 ->]. simpl.
  specialize (Hc a0 a1). destruct (call a0 a1); simpl; eauto.
Qed.

Lemma ternary_shape (L : Library) prefix opName o context st call :
  (forall a0 a1 a2, call a0 a1 a2 <> Panic) ->
  setsValue st (ternary L prefix opName o context st call).
Proof.
  intros Hc. unfold ternary.
  destruct (processArgs L 3 (Arguments o) context (placeholder st)) as [args|e|] eqn:Ha;
    simpl; [|exact I|now apply processArgs_no_panic in Ha].
  apply processArgs_length in Ha.
  destruct (index_lt args 0 ltac:(lia)) as [a0 ->].
  destruct (index_lt args 1 ltac:(lia)) as [a1 ->].
  destruct (index_lt args 2 ltac:(lia)) as [a2 ->]. simpl.
  specialize (Hc a0 a1 a2). destruct (call a0 a1 a2); simpl; eauto.
Qed.

(** Every way one step of the [switch] can end.  It never changes the
    placeholder; only [join] changes the mode, to [Join]; only a [join] of
    a [Placeholder] skips the mode switch; and only the four operations
    that index their first argument themselves can panic, when they have
    no argument. *)
Lemma evalOp_shape (L : Library) prefix context o st :
  match evalOp L prefix context o st with
  | Ok (Next st') =>
      placeholder st' = placeholder st /\
      (mode st' = mode st \/ mode st' = Join)
  | Ok (Continue st') =>
      ToLower L (Name o) = "join"%string /\
      st' = mkPipeState (placeholder st) (placeholder st) Join /\
      exists a rest, Arguments o = a :: rest /\ Argument_Type a = Placeholder
  | Err _ => True
  | Panic => Arguments o = [] /\ indexesFirst (ToLower L (Name o))
  end.
Proof.
  assert (Sh : forall r, setsValue st r ->
            match r with
            | Ok (Next st') =>
                placeholder st' = placeholder st /\
                (mode st' = mode st \/ mode st' = Join)
            | Ok (Continue st') =>
                ToLower L (Name o) = "join"%string /\
                st' = mkPipeState (placeholder st) (placeholder st) Join /\
                exists a rest, Arguments o = a :: rest /\ Argument_Type a = Placeholder
            | Err _ => True
            | Panic => Arguments o = [] /\ indexesFirst (ToLower L (Name o))
            end).
  { intros [[st'|st']|e|]; simpl; try tauto.
    intros [v ->]. simpl. auto. }
  split_switch;
    try (apply Sh;
         first [ apply unary_shape | apply binary_shape; [lia|] | apply ternary_shape ];
         intros; first [ apply opErr_no_panic | apply noErr_no_panic ]);
    try (simpl; auto; fail);
    try exact I.
  all: unfold index; destruct (Arguments o) as [|a rest] eqn:Hargs; simpl;
    [ split; [reflexivity|unfold indexesFirst; tauto] | ].
  all: destruct (GetValue L a context (placeholder st)) eqn:Hv; simpl; auto;
    try (now apply GetValue_no_panic in Hv).
  destruct (decide (Argument_Type a = Placeholder)) as [Hp|Hp]; simpl; auto.
  rewrite GetValue_Placeholder in Hv by assumption. injection Hv as <-.
  unfold setValue; simpl. eauto 6.
Qed.

(** ** [join] and the placeholder *)

Lemma value_step (L : Library) prefix context o a rest st v :
  ToLower L (Name o) = "value"%string ->
  Arguments o = a :: rest ->
  GetValue L a context (placeholder st) = Ok v ->
  stepOp L prefix context o st =
  Ok (combine (mkPipeState (placeholder st) v (mode st))).
Proof.
  intros Hn Ha Hv. unfold stepOp. pick_branch Hn.
  rewrite Ha. unfold index; simpl. rewrite Hv. reflexivity.
Qed.

(** A [join] of a [Placeholder] arms [Join] and leaves the placeholder as
    it is: the mode switch is skipped. *)
Lemma join_placeholder_step (L : Library) prefix context o a rest st :
  ToLower L (Name o) = "join"%string ->
  Arguments o = a :: rest ->
  Argument_Type a = Placeholder ->
  stepOp L prefix context o st =
  Ok (mkPipeState (placeholder st) (placeholder st) Join).
Proof.
  intros Hn Ha Hp. unfold stepOp. pick_branch Hn.
  rewrite Ha. unfold index; simpl.
  rewrite GetValue_Placeholder by assumption. simpl.
  destruct (decide (Argument_Type a = Placeholder)); [reflexivity|contradiction].
Qed.

(** In [Join] mode the value of an operation that reaches the mode switch
    is appended to the placeholder, and the mode goes back to [Replace]. *)
Lemma step_in_join_mode (L : Library) prefix context o st st' :
  mode st = Join ->
  evalOp L prefix context o st = Ok (Next st') ->
  stepOp L prefix context o st =
  Ok (mkPipeState (placeholder st +:+ value st') (value st') Replace).
Proof.
  intros Hm He. unfold stepOp. rewrite He. simpl.
  pose proof (evalOp_shape L prefix context o st) as Sh. rewrite He in Sh.
  destruct Sh as [Hp Hmode].
  assert (mode st' = Join) as Hj by (destruct Hmode; congruence).
  unfold combine. rewrite Hj, Hp. reflexivity.
Qed.

Lemma GetValue_column_1 (L : Library) context placeholder s :
  ctx_Columns context !! 1 = Some s ->
  GetValue L (colArg "1") context placeholder = Ok s.
Proof.
  intros Hs. unfold GetValue, colArg. cbn [Argument_Type Argument_Value].
  change (Atoi "1") with 1. rewrite Hs. reflexivity.
Qed.

(** A deferring [join] that ends the pipe has nothing to append: the pipe
    [value(1), join(?)] returns column 1 once. *)
Lemma join_placeholder_last (L : Library) nv nj recipeType out comment context s :
  ToLower L nv = "value"%string ->
  ToLower L nj = "join"%string ->
  ctx_Columns context !! 1 = Some s ->
  processRecipe L recipeType
    (mkRecipe out [mkOperation nv [colArg "1"]; mkOperation nj [getPlaceholderArg]]
       comment) context = Ok s.
Proof.
  intros Hv Hj Hs. unfold processRecipe. simpl.
  erewrite value_step; [|exact Hv|reflexivity|apply GetValue_column_1, Hs].
  simpl.
  erewrite join_placeholder_step; [|exact Hj|reflexivity|reflexivity].
  reflexivity.
Qed.

(** C1. A [join] whose argument is a [Placeholder] sets the mode to [Join]
    and skips the mode switch of its step; the next operation that reaches
    the mode switch has its value appended to the placeholder; and the
    pipe of the stage [1 + ?] (the column, the [join] of [?] that [+]
    arms, then the term [?]) returns column 1 twice over. *)
Theorem join_placeholder_defers (L : Library) :
  (forall prefix context o a rest st,
     ToLower L (Name o) = "join"%string ->
     Arguments o = a :: rest ->
     Argument_Type a = Placeholder ->
     stepOp L prefix context o st =
     Ok (mkPipeState (placeholder st) (placeholder st) Join))
  /\
  (forall prefix context o a rest next pipe st st',
     ToLower L (Name o) = "join"%string ->
     Arguments o = a :: rest ->
     Argument_Type a = Placeholder ->
     evalOp L prefix context next
       (mkPipeState (placeholder st) (placeholder st) Join) = Ok (Next st') ->
     runPipe L prefix context (o :: next :: pipe) st =
     runPipe L prefix context pipe
       (mkPipeState (placeholder st +:+ value st') (value st') Replace))
  /\
  (forall nv nj recipeType out comment context s,
     ToLower L nv = "value"%string ->
     ToLower L nj = "join"%string ->
     ctx_Columns context !! 1 = Some s ->
     processRecipe L recipeType
       (mkRecipe out
          [mkOperation nv [colArg "1"];
           mkOperation nj [getPlaceholderArg];
           mkOperation nv [getPlaceholderArg]] comment) context
     = Ok (s +:+ s)).
Proof.
  split; [|split].
  - intros. eapply join_placeholder_step; eauto.
  - intros prefix context o a rest next pipe st st' Hn Ha Hp He.
    cbn [runPipe].
    erewrite join_placeholder_step by eauto. cbn [bindO].
    erewrite step_in_join_mode; [reflexivity|reflexivity|exact He].
  - intros nv nj recipeType out comment context s Hv Hj Hs.
    unfold processRecipe. simpl.
    erewrite value_step;
      [|exact Hv|reflexivity|apply GetValue_column_1, Hs].
    simpl.
    erewrite join_placeholder_step; [|exact Hj|reflexivity|reflexivity].
    simpl.
    erewrite value_step; [|exact Hv|reflexivity|reflexivity].
    reflexivity.
Qed.

Lemma join_placeholder_defers_witness :
  stepOp asciiLibrary "line 1 / header 1:" (newContext ["ab"; "c"]%string 1)
    (mkOperation "JOIN" [getPlaceholderArg]) (mkPipeState "ab" "ab" Replace)
  = Ok (mkPipeState "ab" "ab" Join)
  /\
  runPipe asciiLibrary "line 1 / header 1:" (newContext ["ab"; "c"]%string 1)
    [mkOperation "join" [getPlaceholderArg]; mkOperation "uppercase" [colArg "2"]]
    (mkPipeState "ab" "ab" Replace)
  = Ok (mkPipeState "abC" "C" Replace)
  /\
  processRecipe asciiLibrary "header"
    (mkRecipe (getOutputForHeader "1")
       [opValue (colArg "1"); opJoin getPlaceholderArg; opValue getPlaceholderArg] "")
    (newContext ["ab"; "c"]%string 1)
  = Ok "abab"%string.
Proof.
  destruct (join_placeholder_defers asciiLibrary) as (H1 & H2 & H3).
  split; [|split].
  - apply (H1 _ _ _ getPlaceholderArg []); reflexivity.
  - rewrite (H2 _ _ _ getPlaceholderArg [] _ []
               (mkPipeState "ab" "ab" Replace) (mkPipeState "ab" "C" Join));
      reflexivity.
  - apply (H3 "value" "join" _ _ _ _ "ab")%string; reflexivity.
Defined.

(** ** Operations that index their first argument *)

Lemma runPipe_app (L : Library) prefix context pre post st :
  runPipe L prefix context (pre ++ post) st =
  (do st' <- runPipe L prefix context pre st; runPipe L prefix context post st').
Proof.
  revert st. induction pre as [|o pre IH]; intros st; simpl; [reflexivity|].
  destruct (stepOp L prefix context o st); simpl; auto.
Qed.

Lemma evalOp_bare (L : Library) prefix context o st :
  indexesFirst (ToLower L (Name o)) ->
  Arguments o = [] ->
  evalOp L prefix context o st = Panic.
Proof.
  intros [H | [H | [H | H]]] Ha; pick_branch H; rewrite Ha; reflexivity.
Qed.

(** The panic of a step has no other cause. *)
Lemma evalOp_panic_iff (L : Library) prefix context o st :
  evalOp L prefix context o st = Panic <->
  Arguments o = [] /\ indexesFirst (ToLower L (Name o)).
Proof.
  split.
  - intros H. pose proof (evalOp_shape L prefix context o st) as Sh.
    now rewrite H in Sh.
  - intros [Ha Hi]. now apply evalOp_bare.
Qed.

(** An operation outside those four evaluates without a panic whatever
    arguments it was given, the empty list included. *)
Lemma padded_operation_total (L : Library) prefix context o st :
  ~ indexesFirst (ToLower L (Name o)) ->
  evalOp L prefix context o st <> Panic.
Proof. rewrite evalOp_panic_iff. tauto. Qed.

(** C2 (the code departs from it). [value], [join], [uppercase] and
    [lowercase] read [o.Arguments[0]] without padding: given an operation
    with no argument, as a bare identifier is, [processRecipe] indexes the
    empty slice and panics where the padding of [processArgs] would have
    supplied the placeholder. *)
Theorem first_argument_unpadded (L : Library) recipeType out comment context
    before o after st :
  indexesFirst (ToLower L (Name o)) ->
  Arguments o = [] ->
  runPipe L (errorPrefixOf recipeType (mkRecipe out (before ++ o :: after) comment)
               context) context before initialState = Ok st ->
  processRecipe L recipeType (mkRecipe out (before ++ o :: after) comment) context
  = Panic.
Proof.
  intros Hi Ha Hb. unfold processRecipe. cbn [Pipe].
  rewrite runPipe_app, Hb. cbn [bindO runPipe].
  unfold stepOp. rewrite evalOp_bare by assumption. reflexivity.
Qed.

Lemma first_argument_unpadded_witness :
  processRecipe asciiLibrary "column"
    (mkRecipe (getOutputForColumn "1")
       ([opValue (colArg "1")] ++ mkOperation "uppercase" [] :: []) "")
    (newContext ["a"; "b"]%string 1)
  = Panic.
Proof.
  apply (first_argument_unpadded asciiLibrary "column" _ _ _
           [opValue (colArg "1")] (mkOperation "uppercase" []) []
           (mkPipeState "a" "a" Replace)).
  - unfold indexesFirst. simpl. tauto.
  - reflexivity.
  - reflexivity.
Defined.

(** ** Errors of argument resolution *)

Lemma processRecipe_step_error (L : Library) recipeType out comment context
    before o after st msg :
  runPipe L (errorPrefixOf recipeType (mkRecipe out (before ++ o :: after) comment)
               context) context before initialState = Ok st ->
  stepOp L (errorPrefixOf recipeType (mkRecipe out (before ++ o :: after) comment)
              context) context o st = Err msg ->
  processRecipe L recipeType (mkRecipe out (before ++ o :: after) comment) context
  = Err msg.
Proof.
  intros Hb Hs. unfold processRecipe. cbn [Pipe].
  rewrite runPipe_app, Hb. cbn [bindO runPipe]. rewrite Hs. reflexivity.
Qed.

Lemma padded_step_error (L : Library) prefix context o st numArgs e :
  In (ToLower L (Name o), numArgs) paddedArity ->
  processArgs L numArgs (Arguments o) context (placeholder st) = Err e ->
  evalOp L prefix context o st =
  Err (prefix +:+ " " +:+ ToLower L (Name o) +:+ "(): error evaluating arg: " +:+ e).
Proof.
  intros Hin Hp. unfold paddedArity in Hin. simpl in Hin.
  repeat (destruct Hin as [Hin | Hin];
          [ injection Hin as Hname <-; symmetry in Hname;
            pick_branch Hname; unfold unary, binary, ternary;
            rewrite Hp; reflexivity | ]).
  contradiction.
Qed.

Lemma first_step_error (L : Library) prefix context o st a rest e :
  indexesFirst (ToLower L (Name o)) ->
  Arguments o = a :: rest ->
  GetValue L a context (placeholder st) = Err e ->
  evalOp L prefix context o st =
  Err (argumentErrorText prefix (ToLower L (Name o)) e).
Proof.
  intros [H | [H | [H | H]]] Ha Hv; pick_branch H; rewrite Ha;
    unfold index; simpl; rewrite Hv; reflexivity.
Qed.

Lemma append_assoc (a b c : string) : (a +:+ b) +:+ c = a +:+ (b +:+ c).
Proof.
  induction a as [|x a IH]; [reflexivity|].
  change (String x ((a +:+ b) +:+ c) = String x (a +:+ (b +:+ c))).
  now rewrite IH.
Qed.

Lemma padded_not_bare opName numArgs :
  In (opName, numArgs) paddedArity ->
  String.eqb opName "value" || String.eqb opName "join" = false.
Proof.
  unfold paddedArity. simpl. intros Hin.
  repeat (destruct Hin as [Hin | Hin]; [injection Hin as <- _; reflexivity|]).
  contradiction.
Qed.

Lemma argument_step_error (L : Library) prefix context o st e :
  ArgumentFails L context (placeholder st) o e ->
  stepOp L prefix context o st =
  Err (argumentErrorText prefix (ToLower L (Name o)) e).
Proof.
  intros [a rest Hi Ha Hv | numArgs Hin Hp]; unfold stepOp.
  - erewrite first_step_error by eauto. reflexivity.
  - erewrite padded_step_error by eauto.
    unfold argumentErrorText. erewrite padded_not_bare by eauto. reflexivity.
Qed.

(** C6, as the code has it. When resolving an argument of an operation
    fails with the error [e], [processRecipe] returns
    [line L / <kind> <target>: NAME(): error evaluating arg: e], with
    [NAME] the lower-cased operation name, for every operation of the
    catalog that takes arguments except [value] and [join]; for these two
    it returns [line L / <kind> <target>: e], without the operation's
    name. *)
Theorem argument_error_text (L : Library) recipeType out comment context
    before o after st e :
  runPipe L (errorPrefixOf recipeType (mkRecipe out (before ++ o :: after) comment)
               context) context before initialState = Ok st ->
  ArgumentFails L context (placeholder st) o e ->
  processRecipe L recipeType (mkRecipe out (before ++ o :: after) comment) context
  = Err ("line " +:+ Itoa (LineNo context) +:+ " / " +:+ recipeType +:+ " " +:+
         Output_Value out +:+ ":" +:+ " " +:+
         (if String.eqb (ToLower L (Name o)) "value" ||
             String.eqb (ToLower L (Name o)) "join"
          then e
          else ToLower L (Name o) +:+ "(): error evaluating arg: " +:+ e)).
Proof.
  intros Hb Hf.
  erewrite processRecipe_step_error; [|exact Hb|apply argument_step_error, Hf].
  unfold argumentErrorText, errorPrefixOf. cbn [Recipe_Output Output_Value].
  f_equal. rewrite !append_assoc. reflexivity.
Qed.

Lemma argument_error_text_witness :
  processRecipe asciiLibrary "column" joinColumn3 rowAB
  = Err "line 1 / column 1: column 3 referenced, but it does not exist in the input"
  /\
  processRecipe asciiLibrary "column" uppercaseFoo rowAB
  = Err ("line 1 / column 1: uppercase(): error evaluating arg: " +:+
         "variable '$foo' referenced, but it is not defined").
Proof.
  split.
  - apply (argument_error_text asciiLibrary "column" (getOutputForColumn "1") ""
             rowAB [opValue (colArg "1")] (opJoin (colArg "3")) []
             (mkPipeState "a" "a" Replace)
             "column 3 referenced, but it does not exist in the input").
    + reflexivity.
    + apply (FirstFails _ _ _ _ _ (colArg "3") []);
        [unfold indexesFirst; simpl; tauto|reflexivity|reflexivity].
  - apply (argument_error_text asciiLibrary "column" (getOutputForColumn "1") ""
             rowAB [] (mkOperation "uppercase" [varArg "$foo"]) []
             initialState
             "variable '$foo' referenced, but it is not defined").
    + reflexivity.
    + apply (FirstFails _ _ _ _ _ (varArg "$foo") []);
        [unfold indexesFirst; simpl; tauto|reflexivity|reflexivity].
Defined.

(** C6 as stated fails for [join] (and [value]): the failed argument of
    [1 <- 1 -> join(3)] on the row [a,b] is reported without
    [join(): error evaluating arg:], as [parse_execute_test.go] expects. *)
Lemma join_error_has_no_name :
  GetValue asciiLibrary (colArg "3") rowAB "a"
  = Err "column 3 referenced, but it does not exist in the input"
  /\
  processRecipe asciiLibrary "column" joinColumn3 rowAB
  = Err "line 1 / column 1: column 3 referenced, but it does not exist in the input"
  /\
  processRecipe asciiLibrary "column" joinColumn3 rowAB
  <> Err ("line 1 / column 1: join(): error evaluating arg: " +:+
          "column 3 referenced, but it does not exist in the input").
Proof.
  split; [reflexivity|]. split; [reflexivity|].
  vm_compute. discriminate.
Qed.

(** ** Validation *)

Lemma In_upTo n i : In i (upTo n) <-> 1 <= i <= n.
Proof.
  unfold upTo. rewrite <- list_elem_of_In, list_elem_of_fmap. split.
  - intros (k & -> & Hk). apply elem_of_seq in Hk. lia.
  - intros H. exists (Z.to_nat i). split; [lia|]. apply elem_of_seq. lia.
Qed.

Lemma In_rangeKeys (R : RangeOrder) n (m : gmap Z Recipe) k :
  In k (rangeKeys R n m) <-> is_Some (m !! k).
Proof.
  rewrite <- list_elem_of_In, (rangeKeys_perm R n m), list_elem_of_fmap. split.
  - intros ([k' r] & -> & H). apply elem_of_map_to_list in H. simpl. eauto.
  - intros [r H]. exists (k, r). split; [reflexivity|].
    now apply elem_of_map_to_list.
Qed.

Lemma missingIn_true columns k : missingIn columns k = true <-> columns !! k = None.
Proof. unfold missingIn. apply bool_decide_eq_true. Qed.

Lemma missingIn_false columns k : missingIn columns k = false <-> is_Some (columns !! k).
Proof.
  unfold missingIn. rewrite bool_decide_eq_false, <- not_eq_None_Some. tauto.
Qed.

Lemma size_zero_empty (m : gmap Z Recipe) :
  (Z.of_nat (size m) =? 0) = true <-> m = ∅.
Proof. rewrite Z.eqb_eq, <- map_size_empty_iff. lia. Qed.

(** What the validator accepts: a non-empty, gap-free column map that
    covers every header. *)
Lemma ValidateRecipe_None (R : RangeOrder) t :
  ValidateRecipe R t = None <->
  Columns t <> ∅ /\
  (forall i, 1 <= i <= Z.of_nat (size (Columns t)) -> is_Some (Columns t !! i)) /\
  (forall h, is_Some (Headers t !! h) -> is_Some (Columns t !! h)).
Proof.
  unfold ValidateRecipe.
  destruct (Z.of_nat (size (Columns t)) =? 0) eqn:Hz.
  { apply size_zero_empty in Hz. split; [discriminate|]. intros [H _]. contradiction. }
  assert (Hne : Columns t <> ∅).
  { intros H. apply size_zero_empty in H. congruence. }
  destruct (find (missingIn (Columns t)) (upTo _)) as [c|] eqn:Hc.
  { apply find_some in Hc as [Hin Hm]. apply In_upTo in Hin.
    apply missingIn_true in Hm. split; [discriminate|].
    intros (_ & H & _). destruct (H c Hin) as [r Hr]. congruence. }
  destruct (find (missingIn (Columns t)) (rangeKeys R 0 (Headers t))) as [h|] eqn:Hh.
  { apply find_some in Hh as [Hin Hm]. apply In_rangeKeys in Hin.
    apply missingIn_true in Hm. split; [discriminate|].
    intros (_ & _ & H). destruct (H h Hin) as [r Hr]. congruence. }
  split; [intros _|reflexivity]. split; [assumption|]. split.
  - intros i Hi. apply missingIn_false. apply (find_none _ _ Hc).
    now apply In_upTo.
  - intros h Hi. apply missingIn_false. apply (find_none _ _ Hh).
    now apply In_rangeKeys.
Qed.

(** C4. Validation returns an error exactly when the column map is empty,
    or an index in [1..|columns|] has no column recipe, or a header index
    has no column recipe; and [Execute] validates first: on a validation
    error it returns that error with the input as it was given and the
    writer flushed, no row read and none written. *)
Theorem validation_errors (L : Library) (R : RangeOrder) (wf : WriteFault)
    t reader writer processHeader lineLimit :
  (is_Some (ValidateRecipe R t) <->
     Columns t = ∅ \/
     (exists i, 1 <= i <= Z.of_nat (size (Columns t)) /\ Columns t !! i = None) \/
     (exists h, is_Some (Headers t !! h) /\ Columns t !! h = None))
  /\
  match ValidateRecipe R t with
  | Some err =>
      Execute L R wf t reader writer processHeader lineLimit
      = (Err err, reader, Flush writer)
      /\ written (Flush writer) = written writer
  | None => True
  end.
Proof.
  split.
  - rewrite <- not_eq_None_Some, ValidateRecipe_None. split.
    + intros H.
      destruct (decide (Columns t = ∅)) as [|Hne]; [now left|right].
      destruct (find (missingIn (Columns t)) (upTo (Z.of_nat (size (Columns t)))))
        as [c|] eqn:Hc.
      { apply find_some in Hc as [Hin Hm]. left. exists c.
        split; [now apply In_upTo|now apply missingIn_true]. }
      destruct (find (missingIn (Columns t)) (rangeKeys R 0 (Headers t)))
        as [h|] eqn:Hh.
      { apply find_some in Hh as [Hin Hm]. right. exists h.
        split; [now apply (In_rangeKeys R 0)|now apply missingIn_true]. }
      exfalso. apply H. split; [assumption|]. split.
      * intros i Hi. apply missingIn_false. apply (find_none _ _ Hc).
        now apply In_upTo.
      * intros h Hi. apply missingIn_false. apply (find_none _ _ Hh).
        now apply In_rangeKeys.
    + intros [He | [(i & Hi & Hn) | (h & Hh & Hn)]] (Hne & Hc & Hh').
      * contradiction.
      * destruct (Hc i Hi) as [r Hr]. congruence.
      * destruct (Hh' h Hh) as [r Hr]. congruence.
  - unfold Execute. destruct (ValidateRecipe R t); [|exact I].
    split; reflexivity.
Qed.

(** ** The result of [Execute] *)

Lemma rowLoop_count (L : Library) (R : RangeOrder) (wf : WriteFault)
    t processHeader lineLimit numColumns :
  forall reader linesRead writer n rest w,
    0 <= linesRead ->
    linesRead + Z.of_nat (length reader) <= maxInt ->
    rowLoop L R wf t processHeader lineLimit numColumns reader linesRead writer
    = (Ok n, rest, w) ->
    exists rows,
      reader = (Record_ <$> rows) ++ rest /\ n = linesRead + Z.of_nat (length rows).
Proof.
  induction reader as [|ev reader IH]; intros linesRead writer n rest w H0 Hmax Hrun;
    simpl in Hrun.
  - exists []. destruct (_ && _) in Hrun; injection Hrun as <- <- _;
      split; [reflexivity|simpl; lia| reflexivity|simpl; lia].
  - destruct (_ && _) in Hrun.
    { injection Hrun as <- <- _. exists []. split; [reflexivity|simpl; lia]. }
    destruct ev as [row|e]; [|discriminate].
    simpl length in Hmax.
    rewrite wrap_small in Hrun by (unfold minInt, maxInt in *; lia).
    destruct (processRow L R wf t processHeader numColumns row (linesRead + 1) writer)
      as [[[]|e|] w1]; try discriminate.
    apply IH in Hrun as (rows & -> & ->); [|lia|lia].
    exists (row :: rows). split; [reflexivity|simpl length; lia].
Qed.

(** C7. A run of [Execute] that returns a result has read a prefix of the
    input, all of it records; [HeaderLines] is 1 when header processing is
    on and 0 otherwise, and [Lines] is the number of records read less
    [HeaderLines].  (The count is an [int]: the input is taken to hold no
    more than [maxInt] records.) *)
Theorem result_counts (L : Library) (R : RangeOrder) (wf : WriteFault)
    t reader writer processHeader lineLimit res rest w :
  Z.of_nat (length reader) <= maxInt ->
  Execute L R wf t reader writer processHeader lineLimit = (Ok res, rest, w) ->
  exists rows,
    reader = (Record_ <$> rows) ++ rest /\
    HeaderLines res = (if processHeader then 1 else 0) /\
    Lines res = Z.of_nat (length rows) - HeaderLines res.
Proof.
  intros Hmax Hrun. unfold Execute in Hrun.
  destruct (ValidateRecipe R t); [discriminate|].
  destruct (rowLoop L R wf t processHeader lineLimit _ reader 0 writer)
    as [[r rest'] w'] eqn:Hloop.
  destruct r as [n|e|]; simpl in Hrun; try discriminate.
  injection Hrun as <- <- _.
  apply rowLoop_count in Hloop as (rows & -> & ->); [|lia|lia].
  exists rows. split; [reflexivity|]. cbn [HeaderLines Lines]. split; [reflexivity|].
  rewrite length_app, length_fmap in Hmax.
  apply wrap_small. unfold minInt, maxInt in *. destruct processHeader; lia.
Qed.

Lemma result_counts_witness :
  exists rows,
    [Record_ ["h"; "x"]; Record_ ["a"; "b"]; Record_ ["c"]]%string
    = (Record_ <$> rows) ++ [] /\
    HeaderLines (mkResult 1 2) = 1 /\
    Lines (mkResult 1 2) = Z.of_nat (length rows) - HeaderLines (mkResult 1 2).
Proof.
  apply (result_counts asciiLibrary listOrder noFault oneColumn
           [Record_ ["h"; "x"]; Record_ ["a"; "b"]; Record_ ["c"]]%string
           emptyWriter true (-1) (mkResult 1 2) []
           (mkWriter [["h"]; ["a"]; ["c"]]%string 1)).
  - vm_compute. discriminate.
  - vm_compute. reflexivity.
Defined.

(** C10, as the code has it. With header processing on and an input of
    zero rows, [Execute] on a transformation that passes validation
    succeeds, writes no row, and returns [HeaderLines = 1] and
    [Lines = -1]. *)
Theorem empty_input_result (L : Library) (R : RangeOrder) (wf : WriteFault)
    t writer lineLimit :
  ValidateRecipe R t = None ->
  Execute L R wf t [] writer true lineLimit
  = (Ok (mkResult 1 (-1)), [], Flush writer)
  /\ written (Flush writer) = written writer.
Proof.
  intros Hv. unfold Execute. rewrite Hv. simpl.
  destruct (_ && _); split; reflexivity.
Qed.

Lemma empty_input_result_witness :
  Execute asciiLibrary listOrder noFault oneColumn [] emptyWriter true 0
  = (Ok (mkResult 1 (-1)), [], Flush emptyWriter)
  /\ written (Flush emptyWriter) = written emptyWriter.
Proof.
  apply (empty_input_result asciiLibrary listOrder noFault oneColumn emptyWriter 0).
  vm_compute. reflexivity.
Defined.

(** C10 as stated fails when the transformation does not validate: with
    header processing on and no input row, the recipe [1 <- "hi"],
    [!3 <- "lala"] makes [Execute] return the validation error, as
    [parse_execute_test.go] expects. *)
Lemma empty_input_invalid_recipe :
  Execute asciiLibrary listOrder noFault orphanHeader [] emptyWriter true (-1)
  = (Err "found header for column 3, but no recipe for column 3", [],
     Flush emptyWriter).
Proof. vm_compute. reflexivity. Qed.

(** ** The context of a row *)

Lemma loadColumns_lookup row : forall i (columns : gmap Z string) k,
  loadColumns i row columns !! k =
  if decide (i < k <= i + Z.of_nat (length row))
  then row !! Z.to_nat (k - i - 1)
  else columns !! k.
Proof.
  induction row as [|v row IH]; intros i columns k; simpl.
  - destruct (decide _); [lia|reflexivity].
  - rewrite IH.
    destruct (decide (i + 1 < k <= i + 1 + Z.of_nat (length row))) as [H|H].
    + rewrite decide_True by lia.
      replace (Z.to_nat (k - i - 1)) with (S (Z.to_nat (k - (i + 1) - 1))) by lia.
      reflexivity.
    + destruct (decide (k = i + 1)) as [->|Hne].
      * rewrite decide_True by lia. rewrite lookup_insert_eq.
        replace (Z.to_nat (i + 1 - i - 1)) with 0%nat by lia. reflexivity.
      * rewrite decide_False by lia. now rewrite lookup_insert_ne.
Qed.

(** The context of a row holds the row's fields, field [i] at key [i+1],
    and nothing else. *)
Lemma newContext_columns row linesRead k :
  ctx_Columns (newContext row linesRead) !! k =
  if decide (1 <= k <= Z.of_nat (length row))
  then row !! Z.to_nat (k - 1)
  else None.
Proof.
  unfold newContext. cbn [ctx_Columns]. rewrite loadColumns_lookup.
  destruct (decide (0 < k <= 0 + Z.of_nat (length row)));
    destruct (decide (1 <= k <= Z.of_nat (length row))); try lia.
  - f_equal. lia.
  - apply lookup_empty.
Qed.

(** Binding variables leaves the columns and the line number alone. *)
Lemma processVariables_columns (L : Library) t : forall order context context',
  processVariables L t order context = Ok context' ->
  ctx_Columns context' = ctx_Columns context /\ LineNo context' = LineNo context.
Proof.
  induction order as [|v order IH]; intros context context' H; simpl in H.
  - injection H as <-. auto.
  - destruct (processRecipe L "variable" _ context) as [p|e|]; simpl in H;
      try discriminate.
    apply IH in H. exact H.
Qed.

(** Variables are evaluated in the order of the list: the recipe of a name
    runs in the context left by the names before it. *)
Lemma processVariables_app (L : Library) t : forall before after context,
  processVariables L t (before ++ after) context =
  (do context' <- processVariables L t before context;
   processVariables L t after context').
Proof.
  induction before as [|v before IH]; intros after context; simpl; [reflexivity|].
  destruct (processRecipe L "variable" _ context); simpl; auto.
Qed.

(** ** The row written *)

Lemma upTo_lookup n k :
  (k < Z.to_nat n)%nat -> upTo n !! k = Some (Z.of_nat k + 1).
Proof.
  intros H. unfold upTo. rewrite list_lookup_fmap, lookup_seq_lt by assumption.
  simpl. f_equal. lia.
Qed.

Lemma upTo_length n : length (upTo n) = Z.to_nat n.
Proof. unfold upTo. now rewrite length_fmap, length_seq. Qed.

Lemma outputRow_length numColumns output :
  length (outputRow numColumns output) = Z.to_nat numColumns.
Proof. unfold outputRow. now rewrite length_fmap, upTo_length. Qed.

Lemma outputRow_lookup numColumns output i :
  1 <= i <= numColumns ->
  outputRow numColumns output !! Z.to_nat (i - 1) = Some (at_key "" output i).
Proof.
  intros H. unfold outputRow. rewrite list_lookup_fmap, upTo_lookup by lia.
  simpl. do 2 f_equal. lia.
Qed.

Lemma foldl_insert_lookup (f : Z -> string) keys : forall (m : gmap Z string) k,
  foldl (fun output i => <[i := f i]> output) m keys !! k =
  if decide (k ∈ keys) then Some (f k) else m !! k.
Proof.
  induction keys as [|i keys IH]; intros m k; cbn [foldl].
  - rewrite decide_False by apply not_elem_of_nil. reflexivity.
  - rewrite IH.
    destruct (decide (k ∈ keys)) as [Hin|Hin].
    + rewrite decide_True by (rewrite elem_of_cons; auto). reflexivity.
    + destruct (decide (i = k)) as [->|Hne].
      * rewrite decide_True by (rewrite elem_of_cons; auto). apply lookup_insert_eq.
      * rewrite decide_False by (rewrite elem_of_cons; intuition congruence).
        now apply lookup_insert_ne.
Qed.

Lemma seedOutput_lookup numColumns row i :
  1 <= i <= numColumns ->
  seedOutput numColumns row !! i = Some (seedValue row i).
Proof.
  intros H. unfold seedOutput. rewrite foldl_insert_lookup.
  rewrite decide_True; [reflexivity|]. now apply list_elem_of_In, In_upTo.
Qed.

(** The header loop overwrites the keys it visits with the values of their
    recipes and leaves the other slots as they were. *)
Lemma headersLoop_lookup (L : Library) t context : forall keys output output' k,
  headersLoop L t keys context output = Ok output' ->
  if decide (k ∈ keys)
  then exists v, output' !! k = Some v /\
         processRecipe L "header" (at_key zeroRecipe (Headers t) k) context = Ok v
  else output' !! k = output !! k.
Proof.
  induction keys as [|h keys IH]; intros output output' k H; simpl in H.
  - injection H as <-. rewrite decide_False by apply not_elem_of_nil. reflexivity.
  - destruct (processRecipe L "header" _ context) as [p|e|] eqn:Hp; simpl in H;
      try discriminate.
    specialize (IH _ _ k H).
    destruct (decide (k ∈ keys)) as [Hin|Hin].
    + rewrite decide_True by (rewrite elem_of_cons; auto). exact IH.
    + destruct (decide (h = k)) as [->|Hne].
      * rewrite decide_True by (rewrite elem_of_cons; auto).
        exists p. rewrite IH, lookup_insert_eq. auto.
      * rewrite decide_False by (rewrite elem_of_cons; intuition congruence).
        rewrite IH. now apply lookup_insert_ne.
Qed.

Lemma columnsLoop_lookup (L : Library) t context : forall keys output output' k,
  columnsLoop L t keys context output = Ok output' ->
  if decide (k ∈ keys)
  then exists v, output' !! k = Some v /\
         processRecipe L "column" (at_key zeroRecipe (Columns t) k) context = Ok v
  else output' !! k = output !! k.
Proof.
  induction keys as [|c keys IH]; intros output output' k H; simpl in H.
  - injection H as <-. rewrite decide_False by apply not_elem_of_nil. reflexivity.
  - destruct (processRecipe L "column" _ context) as [p|e|] eqn:Hp; simpl in H;
      try discriminate.
    specialize (IH _ _ k H).
    destruct (decide (k ∈ keys)) as [Hin|Hin].
    + rewrite decide_True by (rewrite elem_of_cons; auto). exact IH.
    + destruct (decide (c = k)) as [->|Hne].
      * rewrite decide_True by (rewrite elem_of_cons; auto).
        exists p. rewrite IH, lookup_insert_eq. auto.
      * rewrite decide_False by (rewrite elem_of_cons; intuition congruence).
        rewrite IH. now apply lookup_insert_ne.
Qed.

Lemma Write_inv wf writer row w :
  Write wf writer row = Ok w ->
  written w = written writer ++ [row] /\ flushes w = flushes writer.
Proof.
  unfold Write. destruct (wf (written writer) row); [discriminate|].
  intros H. injection H as <-. auto.
Qed.

(** A row that was processed: its variables were bound, then at most one
    of the two branches wrote one row. *)
Lemma processRow_inv (L : Library) (R : RangeOrder) (wf : WriteFault)
    t processHeader numColumns row linesRead writer w' :
  processRow L R wf t processHeader numColumns row linesRead writer = (Ok tt, w') ->
  exists context w1 w2,
    processVariables L t (VariableOrder t) (newContext row linesRead) = Ok context /\
    headerBranch L R wf t processHeader numColumns row linesRead context writer
    = Ok w1 /\
    dataBranch L R wf t processHeader numColumns linesRead context w1 = Ok w2 /\
    written w' = written w2.
Proof.
  unfold processRow. intros H.
  destruct (processVariables L t (VariableOrder t) (newContext row linesRead))
    as [context|e|]; try discriminate.
  destruct (headerBranch L R wf t processHeader numColumns row linesRead context writer)
    as [w1|e|] eqn:Hh; simpl in H; try discriminate.
  destruct (dataBranch L R wf t processHeader numColumns linesRead context w1)
    as [w2|e|] eqn:Hd; simpl in H; try discriminate.
  exists context, w1, w2. repeat split; try assumption.
  injection H as <-. destruct (Z.rem linesRead 100 =? 0); reflexivity.
Qed.

(** The first iteration of the loop of [Execute] processes the first
    record as line 1. *)
Lemma rowLoop_first (L : Library) (R : RangeOrder) (wf : WriteFault)
    t processHeader lineLimit numColumns row rest writer :
  rowLoop L R wf t processHeader lineLimit numColumns (Record_ row :: rest) 0 writer =
  match processRow L R wf t processHeader numColumns row 1 writer with
  | (Ok _, w) => rowLoop L R wf t processHeader lineLimit numColumns rest 1 w
  | (Err e, w) => (Err e, rest, w)
  | (Panic, w) => (Panic, rest, w)
  end.
Proof.
  cbn [rowLoop].
  replace ((0 <? lineLimit) && (lineLimit <=? 0)) with false
    by (symmetry; apply andb_false_iff; lia).
  reflexivity.
Qed.

Lemma processVariables_ext (L : Library) t t' :
  Variables t = Variables t' ->
  forall order context,
    processVariables L t order context = processVariables L t' order context.
Proof.
  intros Hv. induction order as [|v order IH]; intros context; simpl; [reflexivity|].
  rewrite Hv. destruct (processRecipe L "variable" _ context); simpl; auto.
Qed.

Lemma headersLoop_ext (L : Library) t t' context :
  Headers t = Headers t' ->
  forall keys output,
    headersLoop L t keys context output = headersLoop L t' keys context output.
Proof.
  intros Hh. induction keys as [|h keys IH]; intros output; simpl; [reflexivity|].
  rewrite Hh. destruct (processRecipe L "header" _ context); simpl; auto.
Qed.

(** C5. With header processing on, the row written for the first input
    row has [N] fields; field [i] is the value of the header recipe of [i]
    when there is one, and otherwise the input's field [i] when the row
    has one and [column i] when it has not; and the column recipes play no
    part: with any other column map the step is the same. *)
Theorem header_row (L : Library) (R : RangeOrder) (wf : WriteFault)
    t numColumns row writer w' :
  processRow L R wf t true numColumns row 1 writer = (Ok tt, w') ->
  (exists context out,
     processVariables L t (VariableOrder t) (newContext row 1) = Ok context /\
     written w' = written writer ++ [out] /\
     length out = Z.to_nat numColumns /\
     forall i, 1 <= i <= numColumns ->
       exists v, out !! Z.to_nat (i - 1) = Some v /\
         match Headers t !! i with
         | Some recipe => processRecipe L "header" recipe context = Ok v
         | None =>
             if i <=? Z.of_nat (length row)
             then row !! Z.to_nat (i - 1) = Some v
             else v = "column " +:+ Itoa i
         end)
  /\
  (forall columns',
     processRow L R wf (setColumns t columns') true numColumns row 1 writer
     = processRow L R wf t true numColumns row 1 writer)
  /\
  (forall lineLimit rest,
     rowLoop L R wf t true lineLimit numColumns (Record_ row :: rest) 0 writer
     = rowLoop L R wf t true lineLimit numColumns rest 1 w').
Proof.
  intros Hrow. split; [|split].
  - apply processRow_inv in Hrow as (context & w1 & w2 & Hvars & Hh & Hd & Hw).
    unfold dataBranch in Hd. simpl in Hd. injection Hd as <-.
    unfold headerBranch in Hh. simpl in Hh.
    destruct (headersLoop L t (rangeKeys R 1 (Headers t)) context
                (seedOutput numColumns row)) as [output|e|] eqn:Hloop;
      simpl in Hh; try discriminate.
    apply Write_inv in Hh as [Hwritten _].
    exists context, (outputRow numColumns output).
    split; [assumption|]. split; [congruence|].
    split; [apply outputRow_length|].
    intros i Hi. exists (at_key "" output i).
    split; [now apply outputRow_lookup|].
    pose proof (headersLoop_lookup L t context _ _ _ i Hloop) as Hk.
    destruct (decide (i ∈ rangeKeys R 1 (Headers t))) as [Hin|Hin].
    + destruct Hk as (v & Hv & Hp).
      apply list_elem_of_In, In_rangeKeys in Hin as [recipe Hr].
      unfold at_key in *. rewrite Hr in *. rewrite Hv. exact Hp.
    + assert (Headers t !! i = None) as ->.
      { apply eq_None_not_Some. intros Hs. apply Hin.
        now apply list_elem_of_In, In_rangeKeys. }
      unfold at_key. rewrite Hk, seedOutput_lookup by assumption. simpl.
      unfold seedValue. destruct (i <=? Z.of_nat (length row)) eqn:Hle; [|reflexivity].
      destruct (lookup_lt_is_Some_2 row (Z.to_nat (i - 1)) ltac:(lia)) as [x ->].
      reflexivity.
  - intros columns'. unfold processRow, headerBranch, dataBranch.
    change (negb true || (1 <? 1)) with false.
    cbn [VariableOrder Headers setColumns].
    rewrite (processVariables_ext L (setColumns t columns') t) by reflexivity.
    destruct (processVariables L t (VariableOrder t) (newContext row 1));
      try reflexivity.
    rewrite (headersLoop_ext L (setColumns t columns') t) by reflexivity.
    reflexivity.
  - intros lineLimit rest. rewrite rowLoop_first, Hrow. reflexivity.
Qed.

Lemma header_row_witness :
  exists out,
    written (mkWriter [["header"; "H2"; "column 3"]]%string 0) = written emptyWriter ++ [out]
    /\ length out = 3%nat
    /\ (exists v, out !! 1%nat = Some v /\
          processRecipe asciiLibrary "header"
            (mkRecipe (getOutputForHeader "2") [opValue (litArg "H2")] "")
            (newContext ["header"]%string 1) = Ok v)
    /\ (exists v, out !! 2%nat = Some v /\ v = "column 3"%string).
Proof.
  destruct (header_row asciiLibrary listOrder noFault threeColumns 3 ["header"]%string
              emptyWriter (mkWriter [["header"; "H2"; "column 3"]]%string 0))
    as [(context & out & Hvars & Hw & Hlen & Hout) _].
  - vm_compute. reflexivity.
  - exists out. split; [exact Hw|]. split; [exact Hlen|].
    injection Hvars as <-. split.
    + destruct (Hout 2 ltac:(lia)) as (v & Hv & Hr). exists v. split; [exact Hv|].
      exact Hr.
    + destruct (Hout 3 ltac:(lia)) as (v & Hv & Hr). exists v. split; [exact Hv|].
      exact Hr.
Defined.

(** C9. The context a row's recipes run in holds exactly the row's fields,
    field [i] at key [i+1]: the variable recipes leave the columns as they
    were loaded, and every header or column value written for the row is
    the value of its recipe in that context, so a reference to column [n]
    reads the input's field [n] and never a computed output. *)
Theorem columns_are_the_input_row (L : Library) (R : RangeOrder) (wf : WriteFault)
    t processHeader numColumns row linesRead writer w' :
  processRow L R wf t processHeader numColumns row linesRead writer = (Ok tt, w') ->
  exists context,
    processVariables L t (VariableOrder t) (newContext row linesRead) = Ok context /\
    (forall n,
       ctx_Columns context !! n =
       if decide (1 <= n <= Z.of_nat (length row))
       then row !! Z.to_nat (n - 1)
       else None) /\
    (forall c recipe,
       negb processHeader || (1 <? linesRead) = true ->
       Columns t !! c = Some recipe -> 1 <= c <= numColumns ->
       exists out v,
         last (written w') = Some out /\ out !! Z.to_nat (c - 1) = Some v /\
         processRecipe L "column" recipe context = Ok v) /\
    (forall h recipe,
       processHeader && (linesRead =? 1) = true ->
       Headers t !! h = Some recipe -> 1 <= h <= numColumns ->
       exists out v,
         last (written w') = Some out /\ out !! Z.to_nat (h - 1) = Some v /\
         processRecipe L "header" recipe context = Ok v).
Proof.
  intros Hrow.
  apply processRow_inv in Hrow as (context & w1 & w2 & Hvars & Hh & Hd & Hw).
  exists context. split; [assumption|]. split; [|split].
  - intros n. apply processVariables_columns in Hvars as [-> _].
    apply newContext_columns.
  - intros c recipe Hdata Hc Hrange.
    unfold dataBranch in Hd. rewrite Hdata in Hd.
    destruct (columnsLoop L t (rangeKeys R linesRead (Columns t)) context ∅)
      as [output|e|] eqn:Hloop; simpl in Hd; try discriminate.
    apply Write_inv in Hd as [Hwritten _].
    pose proof (columnsLoop_lookup L t context _ _ _ c Hloop) as Hk.
    rewrite decide_True in Hk by (apply list_elem_of_In, In_rangeKeys; eauto).
    destruct Hk as (v & Hv & Hp).
    exists (outputRow numColumns output), v.
    rewrite Hw, Hwritten, last_snoc. split; [reflexivity|].
    rewrite outputRow_lookup by assumption.
    unfold at_key in *. rewrite Hv, Hc in *. auto.
  - intros h recipe Hheader Hc Hrange.
    assert (Hdata : negb processHeader || (1 <? linesRead) = false).
    { apply andb_true_iff in Hheader as [-> Hl]. simpl. lia. }
    unfold dataBranch in Hd. rewrite Hdata in Hd. injection Hd as <-.
    unfold headerBranch in Hh. rewrite Hheader in Hh.
    destruct (headersLoop L t (rangeKeys R linesRead (Headers t)) context
                (seedOutput numColumns row)) as [output|e|] eqn:Hloop;
      simpl in Hh; try discriminate.
    apply Write_inv in Hh as [Hwritten _].
    pose proof (headersLoop_lookup L t context _ _ _ h Hloop) as Hk.
    rewrite decide_True in Hk by (apply list_elem_of_In, In_rangeKeys; eauto).
    destruct Hk as (v & Hv & Hp).
    exists (outputRow numColumns output), v.
    rewrite Hw, Hwritten, last_snoc. split; [reflexivity|].
    rewrite outputRow_lookup by assumption.
    unfold at_key in *. rewrite Hv, Hc in *. auto.
Qed.

Lemma columns_are_the_input_row_witness :
  exists context,
    processVariables asciiLibrary swapColumns (VariableOrder swapColumns)
      (newContext ["a"; "b"]%string 1) = Ok context /\
    ctx_Columns context !! 2 = Some "b"%string /\
    exists out v,
      last (written (mkWriter [["b"; "a"]]%string 0)) = Some out /\
      out !! 0%nat = Some v /\
      processRecipe asciiLibrary "column"
        (mkRecipe (getOutputForColumn "1") [opValue (colArg "2")] "") context = Ok v.
Proof.
  destruct (columns_are_the_input_row asciiLibrary listOrder noFault swapColumns
              false 2 ["a"; "b"]%string 1 emptyWriter (mkWriter [["b"; "a"]]%string 0))
    as (context & Hvars & Hcols & Hdata & _).
  - vm_compute. reflexivity.
  - exists context. split; [exact Hvars|]. split; [exact (Hcols 2)|].
    apply (Hdata 1); [reflexivity|reflexivity|lia].
Defined.

(** ** [VariableOrder] *)

Lemma runCall_VariableOrder c t : VariableOrder (runCall c t) = VariableOrder t.
Proof.
  destruct c as [v|c|h|v o|c o|h o|ty target o]; simpl;
    try destruct ty;
    unfold AddOperationByType, AddOperationToVariable, AddOperationToColumn,
      AddOperationToHeader, AddOutputToVariable, AddOutputToColumn,
      AddOutputToHeader;
    repeat match goal with
           | |- context [match ?m !! ?k with _ => _ end] => destruct (m !! k)
           end;
    reflexivity.
Qed.

Lemma runCalls_VariableOrder calls : forall t,
  VariableOrder (runCalls calls t) = VariableOrder t.
Proof.
  unfold runCalls. induction calls as [|c calls IH]; intros t; simpl; [reflexivity|].
  rewrite IH. apply runCall_VariableOrder.
Qed.

(** A declared variable is a key of [Variables]. *)
Lemma AddOutputToVariable_declares variable t :
  is_Some (Variables (fst (AddOutputToVariable variable t)) !! variable).
Proof.
  unfold AddOutputToVariable.
  destruct (Variables t !! variable) as [r|] eqn:H; simpl.
  - rewrite H. eauto.
  - rewrite lookup_insert_eq. eauto.
Qed.

(** C8, as the code has it. The builder methods of [recipe.go] never
    write [VariableOrder]: after any sequence of calls it is what it was
    before, so on a transformation built from [NewTransformation] by
    these methods alone it is empty and [Execute] binds no variable.
    [Execute] evaluates the recipes of the names listed in
    [VariableOrder], in list order: the recipe of a name runs in the
    context left by the names before it. *)
Theorem builders_leave_VariableOrder (L : Library) calls t context :
  VariableOrder (runCalls calls t) = VariableOrder t
  /\
  processVariables L (runCalls calls NewTransformation)
    (VariableOrder (runCalls calls NewTransformation)) context = Ok context
  /\
  (forall before v after,
     processVariables L t (before ++ v :: after) context =
     (do context1 <- processVariables L t before context;
      do placeholder <-
        processRecipe L "variable" (at_key zeroRecipe (Variables t) v) context1;
      processVariables L t after
        (bindVariable context1
           (Output_Value (Recipe_Output (at_key zeroRecipe (Variables t) v)))
           placeholder))).
Proof.
  split; [apply runCalls_VariableOrder|]. split.
  - rewrite runCalls_VariableOrder. reflexivity.
  - intros before v after. rewrite processVariables_app. reflexivity.
Qed.

(** C8 as stated fails: declaring [$a] and giving it a recipe through the
    builder methods makes [$a] a key of [Variables] and leaves
    [VariableOrder] empty, and [Execute] then never evaluates the recipe
    of [$a]: the column that reads it finds it undefined. *)
Lemma declared_variable_not_ordered :
  is_Some (Variables variableThenColumn !! "$a"%string)
  /\ VariableOrder variableThenColumn = []
  /\ Execute asciiLibrary listOrder noFault variableThenColumn
       [Record_ ["r"]%string] emptyWriter false (-1)
     = (Err "line 1 / column 1: variable '$a' referenced, but it is not defined",
        [], Flush emptyWriter).
Proof.
  split; [|split].
  - vm_compute. eauto.
  - reflexivity.
  - vm_compute. reflexivity.
Qed.

(* ===================================================================== *)
(** * Further properties of [recipe.go] *)
(* ===================================================================== *)

(** ** [processArgs] *)

Lemma argsLoop_agree (L : Library) context placeholder l l' :
  forall todo i processedArgs,
    (forall j, (i <= j < i + todo)%nat -> l !! j = l' !! j) ->
    argsLoop L todo i l context placeholder processedArgs =
    argsLoop L todo i l' context placeholder processedArgs.
Proof.
  induction todo as [|todo IH]; intros i acc H; simpl; [reflexivity|].
  unfold index. rewrite <- (H i) by lia.
  destruct (l !! i) as [a|]; simpl; [|reflexivity].
  destruct (GetValue L a context placeholder); simpl; try reflexivity.
  apply IH. intros j Hj. apply H. lia.
Qed.

Lemma pad_lookup numArgs arguments j :
  (j < numArgs)%nat ->
  pad numArgs arguments !! j = Some (default getPlaceholderArg (arguments !! j)).
Proof.
  intros Hj. destruct (arguments !! j) as [a|] eqn:Ha; simpl.
  - now apply pad_lookup_given.
  - apply pad_lookup_missing. apply lookup_ge_None in Ha. lia.
Qed.

Lemma processArgs_agree (L : Library) numArgs l l' context placeholder :
  (forall j, (j < numArgs)%nat -> l !! j = l' !! j) ->
  processArgs L numArgs l context placeholder =
  processArgs L numArgs l' context placeholder.
Proof.
  intros H. unfold processArgs. apply argsLoop_agree.
  intros j Hj. rewrite !pad_lookup by lia. rewrite H by lia. reflexivity.
Qed.

(** X1. [processArgs] reads the first [numArgs] supplied arguments and no
    other: arguments past the arity are never resolved, so an argument
    there that would fail does not fail the operation. *)
Theorem processArgs_ignores_extra (L : Library) numArgs arguments context placeholder :
  processArgs L numArgs arguments context placeholder =
  processArgs L numArgs (take numArgs arguments) context placeholder.
Proof.
  apply processArgs_agree. intros j Hj. now rewrite lookup_take_lt.
Qed.

(** X2. Writing the placeholder [?] for trailing arguments is the same as
    leaving them out: any number of [?] appended to the supplied
    arguments gives the same result. *)
Theorem processArgs_trailing_placeholders (L : Library) numArgs arguments k
    context placeholder :
  processArgs L numArgs (arguments ++ replicate k getPlaceholderArg)
    context placeholder
  = processArgs L numArgs arguments context placeholder.
Proof.
  unfold processArgs. apply argsLoop_agree. intros j Hj.
  rewrite !pad_lookup by lia. f_equal.
  destruct (decide (j < length arguments)%nat) as [Hlt|Hge].
  - now rewrite lookup_app_l.
  - rewrite lookup_app_r by lia.
    rewrite (lookup_ge_None_2 arguments j) by lia. simpl.
    destruct (replicate k getPlaceholderArg !! (j - length arguments)%nat)
      as [a|] eqn:Ha; [|reflexivity].
    apply lookup_replicate in Ha as [-> _]. reflexivity.
Qed.

Lemma argsLoop_first_error (L : Library) context placeholder arguments :
  forall todo i processedArgs j a e,
    (i <= j < i + todo)%nat ->
    arguments !! j = Some a ->
    GetValue L a context placeholder = Err e ->
    (forall k b, (i <= k < j)%nat -> arguments !! k = Some b ->
       exists v, GetValue L b context placeholder = Ok v) ->
    (forall k, (i <= k < j)%nat -> is_Some (arguments !! k)) ->
    argsLoop L todo i arguments context placeholder processedArgs = Err e.
Proof.
  induction todo as [|todo IH]; intros i acc j a e Hj Ha He Hbefore Hsome; [lia|].
  simpl. unfold index.
  destruct (decide (i = j)) as [->|Hne].
  - rewrite Ha. simpl. rewrite He. reflexivity.
  - destruct (Hsome i ltac:(lia)) as [b Hb]. rewrite Hb. simpl.
    destruct (Hbefore i b ltac:(lia) Hb) as [v ->]. simpl.
    apply (IH (S i) _ j a e); try assumption; try lia.
    + intros k c Hk. apply Hbefore. lia.
    + intros k Hk. apply Hsome. lia.
Qed.

(** X3. When an argument fails to resolve and every argument before it
    resolves, [processArgs] returns that argument's error: the leftmost
    failure is the one reported. *)
Theorem processArgs_first_error (L : Library) numArgs arguments context placeholder
    j a e :
  (j < numArgs)%nat ->
  pad numArgs arguments !! j = Some a ->
  GetValue L a context placeholder = Err e ->
  (forall k b, (k < j)%nat -> pad numArgs arguments !! k = Some b ->
     exists v, GetValue L b context placeholder = Ok v) ->
  processArgs L numArgs arguments context placeholder = Err e.
Proof.
  intros Hj Ha He Hbefore. unfold processArgs.
  apply (argsLoop_first_error L context placeholder _ numArgs 0 [] j a e);
    try assumption; try lia.
  - intros k b Hk. apply Hbefore. lia.
  - intros k Hk. apply lookup_lt_is_Some_2.
    pose proof (pad_length numArgs arguments). lia.
Qed.

Lemma processArgs_first_error_witness :
  processArgs asciiLibrary 3 [litArg "x"; colArg "9"; varArg "$none"] rowAB "p"
  = Err "column 9 referenced, but it does not exist in the input".
Proof.
  apply (processArgs_first_error asciiLibrary 3 _ rowAB "p" 1 (colArg "9")).
  - lia.
  - reflexivity.
  - reflexivity.
  - intros [|k] b Hk Hb; [|lia]. injection Hb as <-. exists "x"%string. reflexivity.
Defined.

(** X4. [processArgs] succeeds exactly when each of the first [numArgs]
    padded arguments resolves, and its values are then theirs, in
    order. *)
Theorem processArgs_values (L : Library) numArgs arguments context placeholder values :
  processArgs L numArgs arguments context placeholder = Ok values <->
  Forall2 (fun a v => GetValue L a context placeholder = Ok v)
          (take numArgs (pad numArgs arguments)) values.
Proof.
  pose proof (processArgs_spec L numArgs arguments context placeholder) as S.
  split.
  - intros H. now rewrite H in S.
  - intros HF.
    destruct (processArgs L numArgs arguments context placeholder)
      as [values'|e|]; [| |contradiction].
    + f_equal. revert values HF. induction S as [|a v l vs Hv _ IH];
        intros values HF; inversion HF; subst; [reflexivity|].
      f_equal; [congruence|]. now apply IH.
    + destruct S as (j & a & Hj & Ha & He).
      assert (Hl : take numArgs (pad numArgs arguments) !! j = Some a)
        by now rewrite lookup_take_lt.
      destruct (Forall2_lookup_l _ _ _ _ _ HF Hl) as (v & _ & Hv). congruence.
Qed.

(** ** The [switch] on the operation name *)

Lemma evalOp_unknown (L : Library) prefix context o st :
  ~ In (ToLower L (Name o)) catalog ->
  evalOp L prefix context o st =
  Err (prefix +:+ " error: processing variable, unimplemented operation "
       +:+ Name o).
Proof.
  intros Hout. unfold evalOp.
  repeat match goal with
         | |- context [String.eqb (ToLower L (Name o)) ?b] =>
             replace (String.eqb (ToLower L (Name o)) b) with false
               by (symmetry; apply String.eqb_neq; intros E; apply Hout;
                   rewrite E; unfold catalog; simpl; tauto)
         end.
  reflexivity.
Qed.

(** X5. An operation whose lower-cased name has no [case] fails the
    recipe with [<prefix> error: processing variable, unimplemented
    operation NAME], where [NAME] is the name as it was written, not
    lower-cased; the operations after it are not evaluated. *)
Theorem unknown_operation_error (L : Library) recipeType out comment context
    before o after st :
  ~ In (ToLower L (Name o)) catalog ->
  runPipe L (errorPrefixOf recipeType (mkRecipe out (before ++ o :: after) comment)
               context) context before initialState = Ok st ->
  processRecipe L recipeType (mkRecipe out (before ++ o :: after) comment) context
  = Err (errorPrefixOf recipeType (mkRecipe out (before ++ o :: after) comment) context
         +:+ " error: processing variable, unimplemented operation " +:+ Name o).
Proof.
  intros Hout Hb. eapply processRecipe_step_error; [exact Hb|].
  unfold stepOp. rewrite evalOp_unknown by assumption. reflexivity.
Qed.

Lemma unknown_operation_error_witness :
  processRecipe asciiLibrary "column"
    (mkRecipe (getOutputForColumn "1")
       ([opValue (colArg "1")] ++ mkOperation "Shout" [] :: [opValue (colArg "7")]) "")
    rowAB
  = Err "line 1 / column 1: error: processing variable, unimplemented operation Shout".
Proof.
  apply (unknown_operation_error asciiLibrary "column" (getOutputForColumn "1") ""
           rowAB [opValue (colArg "1")] (mkOperation "Shout" [])
           [opValue (colArg "7")] (mkPipeState "a" "a" Replace)).
  - unfold catalog. simpl. intros H.
    repeat (destruct H as [H|H]; [discriminate|]). exact H.
  - reflexivity.
Defined.

(** X6. Dispatch is by the lower-cased name alone: two operations of the
    catalog whose names differ only in case, with the same arguments,
    evaluate alike in every state. *)
Theorem dispatch_ignores_case (L : Library) prefix context o1 o2 st :
  ToLower L (Name o1) = ToLower L (Name o2) ->
  Arguments o1 = Arguments o2 ->
  In (ToLower L (Name o1)) catalog ->
  evalOp L prefix context o1 st = evalOp L prefix context o2 st.
Proof.
  intros Hname Hargs Hin.
  unfold evalOp, unary, binary, ternary. rewrite <- Hname, <- Hargs.
  unfold catalog in Hin. simpl in Hin.
  repeat (destruct Hin as [Hin|Hin];
          [ rewrite <- Hin; cbn [String.eqb Ascii.eqb Bool.eqb orb andb];
            reflexivity | ]).
  contradiction.
Qed.

Lemma dispatch_ignores_case_witness :
  evalOp asciiLibrary "line 1 / column 1:" rowAB
    (mkOperation "UPPERCASE" [colArg "1"]) initialState
  = evalOp asciiLibrary "line 1 / column 1:" rowAB
      (mkOperation "uppercase" [colArg "1"]) initialState.
Proof.
  apply dispatch_ignores_case.
  - reflexivity.
  - reflexivity.
  - unfold catalog. simpl. tauto.
Defined.

(** X7. A [join] of anything but the placeholder appends: whatever the
    mode before it, the step leaves the placeholder followed by the
    argument's value, in [Replace] mode. *)
Theorem join_appends (L : Library) prefix context o a rest st v :
  ToLower L (Name o) = "join"%string ->
  Arguments o = a :: rest ->
  Argument_Type a <> Placeholder ->
  GetValue L a context (placeholder st) = Ok v ->
  stepOp L prefix context o st =
  Ok (mkPipeState (placeholder st +:+ v) v Replace).
Proof.
  intros Hn Ha Hp Hv. unfold stepOp. pick_branch Hn.
  rewrite Ha. unfold index; simpl. rewrite Hv. simpl.
  destruct (decide (Argument_Type a = Placeholder)); [contradiction|reflexivity].
Qed.

Lemma join_appends_witness :
  stepOp asciiLibrary "line 1 / column 1:" rowAB (opJoin (colArg "2"))
    (mkPipeState "a" "a" Replace)
  = Ok (mkPipeState "ab" "b" Replace).
Proof.
  apply (join_appends asciiLibrary _ rowAB (opJoin (colArg "2")) (colArg "2") []
           (mkPipeState "a" "a" Replace) "b");
    [reflexivity|reflexivity|discriminate|reflexivity].
Defined.

(** X8. For an operation that reads its arguments through [processArgs],
    leaving out trailing arguments and writing [?] for them evaluate
    alike: a bare name is the call with every argument [?]. *)
Theorem omitted_arguments_are_placeholders (L : Library) prefix context
    name arguments k numArgs st :
  In (ToLower L name, numArgs) paddedArity ->
  evalOp L prefix context
    (mkOperation name (arguments ++ replicate k getPlaceholderArg)) st
  = evalOp L prefix context (mkOperation name arguments) st.
Proof.
  intros Hin. unfold paddedArity in Hin. simpl in Hin.
  unfold evalOp, unary, binary, ternary. cbn [Name Arguments].
  rewrite !processArgs_trailing_placeholders.
  repeat (destruct Hin as [Hin|Hin];
          [ injection Hin as Hname _; rewrite <- Hname;
            cbn [String.eqb Ascii.eqb Bool.eqb orb andb]; reflexivity | ]).
  contradiction.
Qed.

Lemma omitted_arguments_are_placeholders_witness :
  evalOp asciiLibrary "line 1 / column 1:" rowAB
    (mkOperation "Trim" ([] ++ replicate 1 getPlaceholderArg))
    (mkPipeState "a" "a" Replace)
  = evalOp asciiLibrary "line 1 / column 1:" rowAB
      (mkOperation "Trim" []) (mkPipeState "a" "a" Replace).
Proof.
  apply (omitted_arguments_are_placeholders asciiLibrary _ rowAB "Trim" [] 1 1).
  unfold paddedArity. simpl. tauto.
Defined.

(** ** References into a row *)

(** X9. In the context of an input row, a reference to column [n] reads
    the row's field [n], counted from 1, and fails with [column n
    referenced, but it does not exist in the input] for [n = 0] and for
    every [n] past the row's last field. *)
Theorem column_reference_in_row (L : Library) row linesRead placeholder n :
  0 <= n <= maxInt ->
  GetValue L (mkArgument Column (Itoa n)) (newContext row linesRead) placeholder =
  match row !! Z.to_nat (n - 1) with
  | Some field => if decide (1 <= n) then Ok field
                  else Err ("column " +:+ Itoa n +:+
                            " referenced, but it does not exist in the input")
  | None => Err ("column " +:+ Itoa n +:+
                 " referenced, but it does not exist in the input")
  end.
Proof.
  intros Hn. rewrite GetValue_Column_decimal by assumption.
  rewrite newContext_columns.
  destruct (decide (1 <= n <= Z.of_nat (length row))) as [Hin|Hout].
  - destruct (lookup_lt_is_Some_2 row (Z.to_nat (n - 1)) ltac:(lia)) as [x Hx].
    rewrite Hx. rewrite decide_True by lia. reflexivity.
  - destruct (row !! Z.to_nat (n - 1)) as [x|] eqn:Hx; [|reflexivity].
    destruct (decide (1 <= n)); [|reflexivity].
    apply lookup_lt_Some in Hx. lia.
Qed.

Lemma column_reference_in_row_witness :
  GetValue asciiLibrary (mkArgument Column (Itoa 3)) (newContext ["a"; "b"]%string 1) ""
  = match ["a"; "b"]%string !! Z.to_nat (3 - 1) with
    | Some field => if decide (1 <= 3) then Ok field
                    else Err ("column " +:+ Itoa 3 +:+
                              " referenced, but it does not exist in the input")
    | None => Err ("column " +:+ Itoa 3 +:+
                   " referenced, but it does not exist in the input")
    end.
Proof.
  apply (column_reference_in_row asciiLibrary ["a"; "b"]%string 1 "" 3).
  unfold maxInt. lia.
Defined.

(** X10. [Output.GetValue] reads a column or a variable target as
    [Argument.GetValue] reads an argument of the same kind and text: one
    returns a value exactly when the other does, the same value; for a
    target of any other kind it fails with [unknown column type]. *)
Theorem Output_GetValue_agrees (L : Library) (o : Output) context placeholder :
  match Output_Type o with
  | Column | VariableT =>
      forall v,
        Output_GetValue o context = Ok v <->
        GetValue L (mkArgument (Output_Type o) (Output_Value o)) context placeholder
        = Ok v
  | _ => Output_GetValue o context = Err "unknown column type"
  end.
Proof.
  unfold Output_GetValue, GetValue. cbn [Argument_Type Argument_Value].
  destruct (Output_Type o); simpl; try reflexivity.
  - intros v. destruct (ctx_Columns context !! Atoi (Output_Value o));
      split; intros H; try discriminate; exact H.
  - intros v. destruct (ctx_Variables context !! Output_Value o);
      split; intros H; try discriminate; exact H.
Qed.

(** ** The variables of a row *)

Lemma processVariables_keeps_bound (L : Library) t : forall order context context' k,
  processVariables L t order context = Ok context' ->
  is_Some (ctx_Variables context !! k) ->
  is_Some (ctx_Variables context' !! k).
Proof.
  induction order as [|v order IH]; intros context context' k H Hk; simpl in H.
  - injection H as <-. assumption.
  - destruct (processRecipe L "variable" _ context) as [p|e|]; simpl in H;
      try discriminate.
    apply (IH _ _ k) in H; [assumption|].
    unfold bindVariable. cbn [ctx_Variables].
    destruct (decide (Output_Value (Recipe_Output (at_key zeroRecipe (Variables t) v)) = k))
      as [->|Hne].
    + rewrite lookup_insert_eq. eauto.
    + now rewrite lookup_insert_ne.
Qed.

(** X11. After the variables of a row are processed, every name listed in
    [VariableOrder] is bound, under the name its recipe's output
    carries, and nothing bound before has been unbound. *)
Theorem listed_variables_are_bound (L : Library) t order context context' :
  processVariables L t order context = Ok context' ->
  (forall v, In v order ->
     is_Some (ctx_Variables context' !!
                Output_Value (Recipe_Output (at_key zeroRecipe (Variables t) v))))
  /\
  (forall k, is_Some (ctx_Variables context !! k) ->
     is_Some (ctx_Variables context' !! k)).
Proof.
  intros H. split; [|intros k; now apply (processVariables_keeps_bound L t order)].
  revert context H. induction order as [|w order IH]; intros context H v Hin;
    [contradiction|].
  simpl in H.
  destruct (processRecipe L "variable" _ context) as [p|e|]; simpl in H;
    try discriminate.
  destruct Hin as [<-|Hin].
  - apply (processVariables_keeps_bound L t order _ _ _ H).
    unfold bindVariable. cbn [ctx_Variables]. rewrite lookup_insert_eq. eauto.
  - now apply (IH _ H).
Qed.

Lemma listed_variables_are_bound_witness :
  (forall v, In v ["$a"%string] ->
     is_Some (ctx_Variables
                (mkContext (<["$a"%string := "x"%string]> ∅) (ctx_Columns rowAB) 1) !!
                Output_Value (Recipe_Output
                  (at_key zeroRecipe (Variables variableThenColumn) v))))
  /\
  (forall k, is_Some (ctx_Variables rowAB !! k) ->
     is_Some (ctx_Variables
                (mkContext (<["$a"%string := "x"%string]> ∅) (ctx_Columns rowAB) 1)
              !! k)).
Proof.
  apply (listed_variables_are_bound asciiLibrary variableThenColumn ["$a"%string]
           rowAB
           (mkContext (<["$a"%string := "x"%string]> ∅) (ctx_Columns rowAB) 1)).
  vm_compute. reflexivity.
Defined.

(** X12. A name in [VariableOrder] that has no recipe in [Variables] is
    no error: [t.Variables[v]] is the zero recipe, whose empty pipe
    evaluates to the empty string, and the empty string is bound under
    the empty name. *)
Theorem unlisted_recipe_binds_empty (L : Library) t v rest context :
  Variables t !! v = None ->
  processVariables L t (v :: rest) context =
  processVariables L t rest (bindVariable context "" "").
Proof.
  intros H. cbn [processVariables]. unfold at_key. rewrite H. reflexivity.
Qed.

Lemma unlisted_recipe_binds_empty_witness :
  processVariables asciiLibrary oneColumn ["$ghost"%string] rowAB =
  processVariables asciiLibrary oneColumn [] (bindVariable rowAB "" "").
Proof.
  apply (unlisted_recipe_binds_empty asciiLibrary oneColumn "$ghost" [] rowAB).
  reflexivity.
Defined.

(** ** The builder methods *)

Lemma AddOutputToColumn_present column t r :
  Columns t !! Atoi column = Some r ->
  AddOutputToColumn column t =
  (t, Some ("column " +:+ Itoa (Atoi column) +:+ " already defined")).
Proof. intros H. unfold AddOutputToColumn. rewrite H. reflexivity. Qed.

Lemma AddOutputToHeader_present header t r :
  Headers t !! Atoi header = Some r ->
  AddOutputToHeader header t =
  (t, Some ("header " +:+ Itoa (Atoi header) +:+ " already defined")).
Proof. intros H. unfold AddOutputToHeader. rewrite H. reflexivity. Qed.

Lemma AddOutputToVariable_present variable t r :
  Variables t !! variable = Some r ->
  AddOutputToVariable variable t =
  (t, Some ("variable " +:+ variable +:+ " already defined")).
Proof. intros H. unfold AddOutputToVariable. rewrite H. reflexivity. Qed.

Lemma AddOutputToColumn_declares column t :
  is_Some (Columns (fst (AddOutputToColumn column t)) !! Atoi column).
Proof.
  unfold AddOutputToColumn.
  destruct (Columns t !! Atoi column) as [r|] eqn:H; simpl.
  - rewrite H. eauto.
  - rewrite lookup_insert_eq. eauto.
Qed.

Lemma AddOutputToHeader_declares header t :
  is_Some (Headers (fst (AddOutputToHeader header t)) !! Atoi header).
Proof.
  unfold AddOutputToHeader.
  destruct (Headers t !! Atoi header) as [r|] eqn:H; simpl.
  - rewrite H. eauto.
  - rewrite lookup_insert_eq. eauto.
Qed.

(** X13. A target is declared once.  After [AddOutputToColumn], a second
    declaration of a column text that reads as the same number ([1],
    [01], [+1]) returns [column N already defined] and changes nothing;
    so for headers, and for variables by name. *)
Theorem second_declaration_fails (t : Transformation) :
  (forall column column',
     Atoi column' = Atoi column ->
     AddOutputToColumn column' (fst (AddOutputToColumn column t)) =
     (fst (AddOutputToColumn column t),
      Some ("column " +:+ Itoa (Atoi column) +:+ " already defined")))
  /\
  (forall header header',
     Atoi header' = Atoi header ->
     AddOutputToHeader header' (fst (AddOutputToHeader header t)) =
     (fst (AddOutputToHeader header t),
      Some ("header " +:+ Itoa (Atoi header) +:+ " already defined")))
  /\
  (forall variable,
     AddOutputToVariable variable (fst (AddOutputToVariable variable t)) =
     (fst (AddOutputToVariable variable t),
      Some ("variable " +:+ variable +:+ " already defined"))).
Proof.
  split; [|split].
  - intros column column' E.
    destruct (AddOutputToColumn_declares column t) as [r Hr].
    rewrite <- E in Hr. rewrite (AddOutputToColumn_present _ _ _ Hr), E. reflexivity.
  - intros header header' E.
    destruct (AddOutputToHeader_declares header t) as [r Hr].
    rewrite <- E in Hr. rewrite (AddOutputToHeader_present _ _ _ Hr), E. reflexivity.
  - intros variable.
    destruct (AddOutputToVariable_declares variable t) as [r Hr].
    now rewrite (AddOutputToVariable_present _ _ _ Hr).
Qed.

(** X14. [AddOperationToColumn] puts the operation at the end of the
    pipe of the column its text reads as, starting an empty recipe when
    the column is new, and changes no other column, no header, no
    variable. *)
Theorem AddOperationToColumn_appends column operation t :
  Pipe (at_key zeroRecipe (Columns (AddOperationToColumn column operation t))
          (Atoi column))
  = Pipe (at_key zeroRecipe (Columns t) (Atoi column)) ++ [operation]
  /\ is_Some (Columns (AddOperationToColumn column operation t) !! Atoi column)
  /\ (forall k, k <> Atoi column ->
        Columns (AddOperationToColumn column operation t) !! k = Columns t !! k)
  /\ Headers (AddOperationToColumn column operation t) = Headers t
  /\ Variables (AddOperationToColumn column operation t) = Variables t.
Proof.
  unfold AddOperationToColumn, AddOutputToColumn, at_key.
  destruct (Columns t !! Atoi column) as [r|] eqn:H; simpl;
    rewrite ?H; repeat rewrite lookup_insert_eq; simpl;
    repeat split; eauto; intros k Hk; now rewrite !lookup_insert_ne.
Qed.

(** X15. [AddOperationToVariable] and [AddOperationToHeader] do the same
    for a variable, by name, and for a header, by number. *)
Theorem AddOperationToVariable_appends variable header operation t :
  (Pipe (at_key zeroRecipe (Variables (AddOperationToVariable variable operation t))
           variable)
   = Pipe (at_key zeroRecipe (Variables t) variable) ++ [operation]
   /\ (forall k, k <> variable ->
         Variables (AddOperationToVariable variable operation t) !! k
         = Variables t !! k)
   /\ Columns (AddOperationToVariable variable operation t) = Columns t
   /\ Headers (AddOperationToVariable variable operation t) = Headers t)
  /\
  (Pipe (at_key zeroRecipe (Headers (AddOperationToHeader header operation t))
           (Atoi header))
   = Pipe (at_key zeroRecipe (Headers t) (Atoi header)) ++ [operation]
   /\ (forall k, k <> Atoi header ->
         Headers (AddOperationToHeader header operation t) !! k = Headers t !! k)
   /\ Columns (AddOperationToHeader header operation t) = Columns t
   /\ Variables (AddOperationToHeader header operation t) = Variables t).
Proof.
  split.
  - unfold AddOperationToVariable, AddOutputToVariable, at_key.
    destruct (Variables t !! variable) as [r|] eqn:H; simpl;
      rewrite ?H; repeat rewrite lookup_insert_eq; simpl;
      repeat split; eauto; intros k Hk; now rewrite !lookup_insert_ne.
  - unfold AddOperationToHeader, AddOutputToHeader, at_key.
    destruct (Headers t !! Atoi header) as [r|] eqn:H; simpl;
      rewrite ?H; repeat rewrite lookup_insert_eq; simpl;
      repeat split; eauto; intros k Hk; now rewrite !lookup_insert_ne.
Qed.

Lemma extends_refl r : extends r r.
Proof. repeat split. exists []. now rewrite app_nil_r. Qed.

Lemma extends_trans r3 r2 r1 : extends r3 r2 -> extends r2 r1 -> extends r3 r1.
Proof.
  intros (Ho & Hc & a & Ha) (Ho' & Hc' & b & Hb). repeat split; try congruence.
  exists (b ++ a). rewrite Ha, Hb. now rewrite app_assoc.
Qed.

Lemma extends_append r operation : extends (appendOperation r operation) r.
Proof. repeat split. now exists [operation]. Qed.

Lemma grows_refl {K : Type} `{Countable K} (m : gmap K Recipe) : grows m m.
Proof. intros k r Hr. exists r. split; [assumption|apply extends_refl]. Qed.

Lemma grows_trans {K : Type} `{Countable K} (m3 m2 m1 : gmap K Recipe) :
  grows m3 m2 -> grows m2 m1 -> grows m3 m1.
Proof.
  intros H32 H21 k r Hr. destruct (H21 k r Hr) as (r2 & Hr2 & E2).
  destruct (H32 k r2 Hr2) as (r3 & Hr3 & E3). exists r3.
  split; [assumption|]. eapply extends_trans; eauto.
Qed.

Lemma grows_insert {K : Type} `{Countable K} (m : gmap K Recipe) key r0 :
  (forall r, m !! key = Some r -> extends r0 r) ->
  grows (<[key := r0]> m) m.
Proof.
  intros Hkey k r Hr. destruct (decide (key = k)) as [->|Hne].
  - exists r0. rewrite lookup_insert_eq. auto.
  - exists r. rewrite lookup_insert_ne by assumption.
    split; [assumption|apply extends_refl].
Qed.

Lemma grows_insert_twice {K : Type} `{Countable K} (m : gmap K Recipe) key r0 r1 :
  m !! key = None ->
  grows (<[key := r1]> (<[key := r0]> m)) m.
Proof.
  intros Hnone. rewrite insert_insert_eq. apply grows_insert.
  intros r Hr. congruence.
Qed.

Lemma runCall_grows c t :
  grows (Columns (runCall c t)) (Columns t) /\
  grows (Headers (runCall c t)) (Headers t) /\
  grows (Variables (runCall c t)) (Variables t).
Proof.
  destruct c as [v|c|h|v o|c o|h o|ty target o]; simpl;
    try destruct ty;
    unfold AddOperationByType, AddOperationToVariable, AddOperationToColumn,
      AddOperationToHeader, AddOutputToVariable, AddOutputToColumn,
      AddOutputToHeader, at_key;
    repeat match goal with
           | |- context [match ?m !! ?k with _ => _ end] =>
               let E := fresh "E" in destruct (m !! k) eqn:E
           end;
    simpl; rewrite ?lookup_insert_eq; simpl;
    repeat split;
    first [ apply grows_refl
          | apply grows_insert_twice; assumption
          | apply grows_insert; intros r' Hr'; rewrite Hr' in *;
            first [ discriminate
                  | match goal with
                    | E : Some _ = Some _ |- _ =>
                        injection E as <-; apply extends_append
                    end ] ].
Qed.

(** X16. The builder methods only ever add: after any sequence of calls
    every column, header and variable that was declared is still
    declared, with the same output and a pipe that starts with the pipe
    it had.  No call removes a target, reorders a pipe or drops an
    operation. *)
Theorem builders_only_extend calls t :
  grows (Columns (runCalls calls t)) (Columns t) /\
  grows (Headers (runCalls calls t)) (Headers t) /\
  grows (Variables (runCalls calls t)) (Variables t).
Proof.
  unfold runCalls. revert t. induction calls as [|c calls IH]; intros t; simpl.
  - repeat split; apply grows_refl.
  - destruct (IH (runCall c t)) as (Hc & Hh & Hv).
    destruct (runCall_grows c t) as (Hc' & Hh' & Hv').
    repeat split; eapply grows_trans; eauto.
Qed.

(** ** What validation guarantees and reports *)

Lemma upTo_NoDup n : NoDup (upTo n).
Proof.
  unfold upTo. apply NoDup_fmap_2; [|apply NoDup_seq].
  intros a b E. lia.
Qed.

(** X17. A transformation that passes validation has exactly the columns
    [1..N], [N] being their number, and no header outside them: the keys
    of [Columns] are dense, whatever order the header map was visited
    in. *)
Theorem validated_columns_are_dense (R : RangeOrder) t :
  ValidateRecipe R t = None ->
  (forall k, is_Some (Columns t !! k) <-> 1 <= k <= Z.of_nat (size (Columns t)))
  /\
  (forall h, is_Some (Headers t !! h) -> 1 <= h <= Z.of_nat (size (Columns t))).
Proof.
  intros Hv. apply ValidateRecipe_None in Hv as (Hne & Hdense & Hheaders).
  assert (Hkeys : forall k,
            is_Some (Columns t !! k) <-> 1 <= k <= Z.of_nat (size (Columns t))).
  { assert (Heq : list_to_set (upTo (Z.of_nat (size (Columns t))))
                  = (dom (Columns t) : gset Z)).
    { apply set_subseteq_size_eq.
      - intros k Hk. apply elem_of_list_to_set, list_elem_of_In, In_upTo in Hk.
        apply elem_of_dom. now apply Hdense.
      - rewrite size_dom, size_list_to_set by apply upTo_NoDup.
        rewrite upTo_length. lia. }
    intros k. rewrite <- elem_of_dom, <- Heq, elem_of_list_to_set, list_elem_of_In.
    apply In_upTo. }
  split; [exact Hkeys|].
  intros h Hh. apply Hkeys. now apply Hheaders.
Qed.

Lemma validated_columns_are_dense_witness :
  (forall k, is_Some (Columns threeColumns !! k)
             <-> 1 <= k <= Z.of_nat (size (Columns threeColumns)))
  /\
  (forall h, is_Some (Headers threeColumns !! h)
             -> 1 <= h <= Z.of_nat (size (Columns threeColumns))).
Proof.
  apply (validated_columns_are_dense listOrder threeColumns).
  vm_compute. reflexivity.
Defined.

Lemma find_first {A : Type} (f : A -> bool) before x after :
  (forall y, In y before -> f y = false) ->
  f x = true ->
  find f (before ++ x :: after) = Some x.
Proof.
  intros Hb Hx. induction before as [|y before IH]; simpl.
  - now rewrite Hx.
  - rewrite (Hb y) by (simpl; auto). apply IH. intros z Hz. apply Hb. simpl. auto.
Qed.

Lemma upTo_split n c :
  1 <= c <= n ->
  upTo n = upTo (c - 1) ++ c :: (Z.of_nat <$> seq (Z.to_nat c + 1) (Z.to_nat (n - c))).
Proof.
  intros H. unfold upTo.
  replace (Z.to_nat n) with (Z.to_nat (c - 1) + S (Z.to_nat (n - c)))%nat by lia.
  rewrite seq_app, fmap_app. cbn [seq fmap list_fmap]. f_equal.
  f_equal; [lia|]. f_equal. f_equal. lia.
Qed.

(** X18. When the columns have a gap, validation reports the lowest
    missing index: with [c] the least index in [1..N] without a recipe
    the error is [missing column definition for column #c], whatever the
    headers are. *)
Theorem validation_reports_least_gap (R : RangeOrder) t c :
  1 <= c <= Z.of_nat (size (Columns t)) ->
  Columns t !! c = None ->
  (forall i, 1 <= i < c -> is_Some (Columns t !! i)) ->
  ValidateRecipe R t = Some ("missing column definition for column #" +:+ Itoa c).
Proof.
  intros Hc Hmiss Hleast. unfold ValidateRecipe.
  replace (Z.of_nat (size (Columns t)) =? 0) with false by (symmetry; lia).
  rewrite (upTo_split _ c Hc), find_first; [reflexivity| |].
  - intros y Hy. apply In_upTo in Hy. apply missingIn_false, Hleast. lia.
  - now apply missingIn_true.
Qed.

Lemma validation_reports_least_gap_witness :
  ValidateRecipe listOrder
    (AddOperationByType Column "4" (opValue (colArg "1"))
       (AddOperationByType Column "3" (opValue (colArg "1")) oneColumn))
  = Some ("missing column definition for column #" +:+ Itoa 2).
Proof.
  apply validation_reports_least_gap.
  - vm_compute. split; discriminate.
  - vm_compute. reflexivity.
  - intros i Hi. assert (i = 1) as -> by lia. vm_compute. eauto.
Defined.

(** X19. When the columns are dense and a header has no column,
    validation fails with [found header for column h, but no recipe for
    column h] for one such header [h]. *)
Theorem validation_reports_orphan_header (R : RangeOrder) t h0 :
  Columns t <> ∅ ->
  (forall i, 1 <= i <= Z.of_nat (size (Columns t)) -> is_Some (Columns t !! i)) ->
  is_Some (Headers t !! h0) ->
  Columns t !! h0 = None ->
  exists h,
    is_Some (Headers t !! h) /\ Columns t !! h = None /\
    ValidateRecipe R t =
    Some ("found header for column " +:+ Itoa h +:+
          ", but no recipe for column " +:+ Itoa h).
Proof.
  intros Hne Hdense Hh0 Hmiss. unfold ValidateRecipe.
  destruct (Z.of_nat (size (Columns t)) =? 0) eqn:Hz.
  { apply size_zero_empty in Hz. contradiction. }
  destruct (find (missingIn (Columns t)) (upTo _)) as [c|] eqn:Hc.
  { apply find_some in Hc as [Hin Hm]. apply In_upTo in Hin.
    apply missingIn_true in Hm. destruct (Hdense c Hin) as [r Hr]. congruence. }
  destruct (find (missingIn (Columns t)) (rangeKeys R 0 (Headers t))) as [h|] eqn:Hh.
  - apply find_some in Hh as [Hin Hm]. exists h.
    split; [now apply (In_rangeKeys R 0)|]. split; [now apply missingIn_true|].
    reflexivity.
  - exfalso. apply missingIn_true in Hmiss.
    rewrite (find_none _ _ Hh h0) in Hmiss; [discriminate|].
    now apply In_rangeKeys.
Qed.

Lemma validation_reports_orphan_header_witness :
  exists h,
    is_Some (Headers orphanHeader !! h) /\ Columns orphanHeader !! h = None /\
    ValidateRecipe listOrder orphanHeader =
    Some ("found header for column " +:+ Itoa h +:+
          ", but no recipe for column " +:+ Itoa h).
Proof.
  apply (validation_reports_orphan_header listOrder orphanHeader 3).
  - vm_compute. discriminate.
  - intros i Hi. assert (i = 1) as ->.
    { change (Z.of_nat (size (Columns orphanHeader))) with 1 in Hi. lia. }
    vm_compute. eauto.
  - vm_compute. eauto.
  - vm_compute. reflexivity.
Defined.

(** ** Rows in, rows out *)

(** One row of the loop: on success exactly one row of [numColumns]
    fields is written, and the writer is flushed when the line number is
    a multiple of 100; on failure nothing is written. *)
Lemma processRow_effect (L : Library) (R : RangeOrder) (wf : WriteFault)
    t processHeader numColumns row linesRead writer :
  1 <= linesRead ->
  match processRow L R wf t processHeader numColumns row linesRead writer with
  | (Ok _, w') =>
      exists out,
        length out = Z.to_nat numColumns /\
        written w' = written writer ++ [out] /\
        flushes w' =
        (flushes writer + (if (Z.rem linesRead 100 =? 0)%Z then 1 else 0))%nat
  | (_, w') => w' = writer
  end.
Proof.
  intros Hl. unfold processRow.
  destruct (processVariables L t (VariableOrder t) (newContext row linesRead))
    as [context|e|]; try reflexivity.
  unfold headerBranch, dataBranch, outputCsvRow, Write.
  destruct (processHeader && (linesRead =? 1)) eqn:Hh.
  - replace (negb processHeader || (1 <? linesRead)) with false
      by (apply andb_true_iff in Hh as [-> ?]; simpl; lia).
    destruct (headersLoop L t _ context _) as [output|e|]; simpl; try reflexivity.
    destruct (wf (written writer) (outputRow numColumns output)); simpl;
      [reflexivity|].
    exists (outputRow numColumns output). rewrite outputRow_length.
    destruct (Z.rem linesRead 100 =? 0); simpl; repeat split; lia.
  - replace (negb processHeader || (1 <? linesRead)) with true
      by (destruct processHeader; simpl in *; lia).
    simpl.
    destruct (columnsLoop L t _ context _) as [output|e|]; simpl; try reflexivity.
    destruct (wf (written writer) (outputRow numColumns output)); simpl;
      [reflexivity|].
    exists (outputRow numColumns output). rewrite outputRow_length.
    destruct (Z.rem linesRead 100 =? 0); simpl; repeat split; lia.
Qed.

Lemma hundredth_line l :
  0 <= l ->
  (l + 1) / 100 - l / 100 = if Z.rem (l + 1) 100 =? 0 then 1 else 0.
Proof.
  intros Hl. rewrite Z.rem_mod_nonneg by lia.
  destruct (Z.eqb_spec ((l + 1) mod 100) 0) as [E|E];
    pose proof (Z.div_mod (l + 1) 100 ltac:(lia));
    pose proof (Z.div_mod l 100 ltac:(lia));
    pose proof (Z.mod_pos_bound (l + 1) 100 ltac:(lia));
    pose proof (Z.mod_pos_bound l 100 ltac:(lia)); lia.
Qed.

(** The whole loop, for every way it can end. *)
Lemma rowLoop_effect (L : Library) (R : RangeOrder) (wf : WriteFault)
    t processHeader lineLimit numColumns :
  forall reader linesRead writer r rest w,
    0 <= linesRead ->
    linesRead + Z.of_nat (length reader) <= maxInt ->
    rowLoop L R wf t processHeader lineLimit numColumns reader linesRead writer
    = (r, rest, w) ->
    exists consumed outs,
      reader = consumed ++ rest /\
      written w = written writer ++ outs /\
      Forall (fun out => length out = Z.to_nat numColumns) outs /\
      match r with
      | Ok n =>
          n = linesRead + Z.of_nat (length consumed) /\
          length outs = length consumed /\
          Z.of_nat (flushes w) = Z.of_nat (flushes writer) + n / 100 - linesRead / 100 /\
          (0 < lineLimit -> linesRead <= lineLimit ->
             n <= lineLimit /\ (rest <> [] -> n = lineLimit)) /\
          (lineLimit <= 0 -> rest = [])
      | _ => S (length outs) = length consumed
      end.
Proof.
  induction reader as [|ev reader IH]; intros linesRead writer r rest w H0 Hmax Hrun.
  - exists [], []. simpl in Hrun.
    assert (r = Ok linesRead /\ rest = [] /\ w = writer) as (-> & -> & ->).
    { destruct (_ && _) in Hrun; injection Hrun as <- <- <-; auto. }
    repeat split; rewrite ?app_nil_r; simpl; auto; try lia; try congruence.
  - cbn [rowLoop] in Hrun.
    destruct ((0 <? lineLimit) && (lineLimit <=? linesRead)) eqn:Hlim.
    { injection Hrun as <- <- <-. exists [], [].
      apply andb_true_iff in Hlim as [H1 H2].
      repeat split; rewrite ?app_nil_r; simpl; auto; try lia; try congruence. }
    destruct ev as [row|e].
    2:{ injection Hrun as <- <- <-. exists [ReadError e], [].
        repeat split; rewrite ?app_nil_r; simpl; auto; try lia; try congruence. }
    simpl length in Hmax.
    rewrite wrap_small in Hrun by (unfold minInt, maxInt in *; lia).
    pose proof (processRow_effect L R wf t processHeader numColumns row
                  (linesRead + 1) writer ltac:(lia)) as Hrow.
    destruct (processRow L R wf t processHeader numColumns row (linesRead + 1) writer)
      as [[[]|e|] w1].
    + destruct Hrow as (out & Hlen & Hw1 & Hf1).
      apply IH in Hrun as (consumed & outs & -> & Hw & Hall & Hr); [|lia|lia].
      exists (Record_ row :: consumed), (out :: outs).
      split; [reflexivity|]. split; [rewrite Hw, Hw1, <- app_assoc; reflexivity|].
      split; [constructor; assumption|].
      destruct r as [n|e|]; simpl length; [|lia|lia].
      destruct Hr as (-> & Hlen' & Hfl & Hlimit & Hall').
      split; [lia|]. split; [lia|]. split.
      * rewrite Hfl, Hf1. pose proof (hundredth_line linesRead H0).
        destruct (Z.rem (linesRead + 1) 100 =? 0); lia.
      * split; [|assumption]. intros Hpos Hle. apply Hlimit; [assumption|].
        apply andb_false_iff in Hlim. lia.
    + injection Hrun as <- <- <-. subst w1. exists [Record_ row], [].
      repeat split; rewrite ?app_nil_r; simpl; auto; try lia; try congruence.
    + injection Hrun as <- <- <-. subst w1. exists [Record_ row], [].
      repeat split; rewrite ?app_nil_r; simpl; auto; try lia; try congruence.
Qed.

Lemma Execute_inv (L : Library) (R : RangeOrder) (wf : WriteFault)
    t reader writer processHeader lineLimit r rest w :
  ValidateRecipe R t = None ->
  Execute L R wf t reader writer processHeader lineLimit = (r, rest, w) ->
  exists r0 w0,
    rowLoop L R wf t processHeader lineLimit (Z.of_nat (size (Columns t)))
      reader 0 writer = (r0, rest, w0) /\
    w = Flush w0 /\
    r = (do linesRead <- r0;
         Ok (mkResult (if processHeader then 1 else 0)
               (wrap (linesRead - (if processHeader then 1 else 0))))).
Proof.
  intros Hv Hrun. unfold Execute in Hrun. rewrite Hv in Hrun.
  destruct (rowLoop L R wf t processHeader lineLimit _ reader 0 writer)
    as [[r0 rest0] w0].
  injection Hrun as <- <- <-. eauto.
Qed.

Lemma Execute_Ok_valid (L : Library) (R : RangeOrder) (wf : WriteFault)
    t reader writer processHeader lineLimit res rest w :
  Execute L R wf t reader writer processHeader lineLimit = (Ok res, rest, w) ->
  ValidateRecipe R t = None.
Proof.
  unfold Execute. destruct (ValidateRecipe R t); [discriminate|reflexivity].
Qed.

(** X20. The line limit bounds the read: when [lineLimit] is positive a
    run that returns a result has read at most [lineLimit] rows, and
    exactly that many if input is left; when it is zero or negative the
    whole input has been read.  (The input holds at most [maxInt]
    elements.) *)
Theorem line_limit_bounds_the_read (L : Library) (R : RangeOrder) (wf : WriteFault)
    t reader writer processHeader lineLimit res rest w :
  Z.of_nat (length reader) <= maxInt ->
  Execute L R wf t reader writer processHeader lineLimit = (Ok res, rest, w) ->
  (0 < lineLimit ->
     HeaderLines res + Lines res <= lineLimit /\
     (rest <> [] -> HeaderLines res + Lines res = lineLimit))
  /\ (lineLimit <= 0 -> rest = []).
Proof.
  intros Hmax Hrun.
  pose proof (Execute_Ok_valid _ _ _ _ _ _ _ _ _ _ _ Hrun) as Hv.
  destruct (Execute_inv _ _ _ _ _ _ _ _ _ _ _ Hv Hrun) as (r0 & w0 & Hloop & -> & Hr).
  destruct r0 as [n|e|]; try discriminate. simpl in Hr. injection Hr as ->.
  apply rowLoop_effect in Hloop as (consumed & outs & -> & _ & _ & Hn & _ & _ & Hlim & Hall);
    [|lia|lia].
  rewrite length_app in Hmax. cbn [HeaderLines Lines].
  rewrite wrap_small by (unfold minInt, maxInt in *; destruct processHeader; lia).
  replace ((if processHeader then 1 else 0) + (n - (if processHeader then 1 else 0)))
    with n by lia.
  split; [|assumption]. intros Hpos. apply Hlim; lia.
Qed.

Lemma line_limit_bounds_the_read_witness :
  (0 < 2 ->
     HeaderLines (mkResult 1 1) + Lines (mkResult 1 1) <= 2 /\
     ([Record_ ["c"]%string] <> [] ->
      HeaderLines (mkResult 1 1) + Lines (mkResult 1 1) = 2))
  /\ (2 <= 0 -> [Record_ ["c"]%string] = []).
Proof.
  apply (line_limit_bounds_the_read asciiLibrary listOrder noFault oneColumn
           [Record_ ["h"; "x"]; Record_ ["a"; "b"]; Record_ ["c"]]%string
           emptyWriter true 2 (mkResult 1 1) [Record_ ["c"]%string]
           (mkWriter [["h"]; ["a"]]%string 1)).
  - vm_compute. discriminate.
  - vm_compute. reflexivity.
Defined.

(** X21. A run that returns a result has written one row for each row it
    read, after the rows the writer already held, each of as many fields
    as there are column recipes. *)
Theorem one_row_written_per_row_read (L : Library) (R : RangeOrder) (wf : WriteFault)
    t reader writer processHeader lineLimit res rest w :
  Z.of_nat (length reader) <= maxInt ->
  Execute L R wf t reader writer processHeader lineLimit = (Ok res, rest, w) ->
  exists consumed outs,
    reader = consumed ++ rest /\
    written w = written writer ++ outs /\
    length outs = length consumed /\
    Forall (fun out => length out = size (Columns t)) outs.
Proof.
  intros Hmax Hrun.
  pose proof (Execute_Ok_valid _ _ _ _ _ _ _ _ _ _ _ Hrun) as Hv.
  destruct (Execute_inv _ _ _ _ _ _ _ _ _ _ _ Hv Hrun) as (r0 & w0 & Hloop & -> & Hr).
  destruct r0 as [n|e|]; try discriminate.
  apply rowLoop_effect in Hloop as (consumed & outs & -> & Hw & Hall & _ & Hlen & _);
    [|lia|lia].
  exists consumed, outs. repeat split; try assumption.
  eapply Forall_impl; [exact Hall|]. intros out Hout. simpl in Hout. lia.
Qed.

Lemma one_row_written_per_row_read_witness :
  exists consumed outs,
    [Record_ ["h"; "x"]; Record_ ["a"; "b"]; Record_ ["c"]]%string = consumed ++ [] /\
    written (mkWriter [["h"]; ["a"]; ["c"]]%string 1) = written emptyWriter ++ outs /\
    length outs = length consumed /\
    Forall (fun out => length out = size (Columns oneColumn)) outs.
Proof.
  apply (one_row_written_per_row_read asciiLibrary listOrder noFault oneColumn
           [Record_ ["h"; "x"]; Record_ ["a"; "b"]; Record_ ["c"]]%string
           emptyWriter true (-1) (mkResult 1 2) []
           (mkWriter [["h"]; ["a"]; ["c"]]%string 1)).
  - vm_compute. discriminate.
  - vm_compute. reflexivity.
Defined.

(** X22. A run of a valid transformation that fails, at a read or in a
    recipe or at the sink, has written one row for each row before the
    failing one and none for it: the output is never left with part of a
    row or with a row of the failed line. *)
Theorem failure_keeps_earlier_rows (L : Library) (R : RangeOrder) (wf : WriteFault)
    t reader writer processHeader lineLimit r rest w :
  Z.of_nat (length reader) <= maxInt ->
  ValidateRecipe R t = None ->
  Execute L R wf t reader writer processHeader lineLimit = (r, rest, w) ->
  (forall res, r <> Ok res) ->
  exists consumed outs,
    reader = consumed ++ rest /\
    written w = written writer ++ outs /\
    S (length outs) = length consumed.
Proof.
  intros Hmax Hv Hrun Hfail.
  destruct (Execute_inv _ _ _ _ _ _ _ _ _ _ _ Hv Hrun) as (r0 & w0 & Hloop & -> & ->).
  apply rowLoop_effect in Hloop as (consumed & outs & -> & Hw & _ & Hr); [|lia|lia].
  exists consumed, outs. repeat split; try assumption.
  destruct r0 as [n|e|]; try assumption.
  exfalso. eapply Hfail. reflexivity.
Qed.

Lemma failure_keeps_earlier_rows_witness :
  exists consumed outs,
    [Record_ ["h"]%string; ReadError "wrong number of fields"; Record_ ["c"]%string]
    = consumed ++ [Record_ ["c"]%string] /\
    written (mkWriter [["h"]]%string 1) = written emptyWriter ++ outs /\
    S (length outs) = length consumed.
Proof.
  apply (failure_keeps_earlier_rows asciiLibrary listOrder noFault oneColumn
           [Record_ ["h"]%string; ReadError "wrong number of fields";
            Record_ ["c"]%string]
           emptyWriter false (-1) (Err "wrong number of fields")
           [Record_ ["c"]%string] (mkWriter [["h"]]%string 1)).
  - vm_compute. discriminate.
  - vm_compute. reflexivity.
  - vm_compute. reflexivity.
  - discriminate.
Defined.

(** X23. A run that returns a result has flushed the writer once for
    every hundredth row read and once more at its end. *)
Theorem flushes_every_hundred_rows (L : Library) (R : RangeOrder) (wf : WriteFault)
    t reader writer processHeader lineLimit res rest w :
  Z.of_nat (length reader) <= maxInt ->
  Execute L R wf t reader writer processHeader lineLimit = (Ok res, rest, w) ->
  Z.of_nat (flushes w) =
  Z.of_nat (flushes writer) + (HeaderLines res + Lines res) / 100 + 1.
Proof.
  intros Hmax Hrun.
  pose proof (Execute_Ok_valid _ _ _ _ _ _ _ _ _ _ _ Hrun) as Hv.
  destruct (Execute_inv _ _ _ _ _ _ _ _ _ _ _ Hv Hrun) as (r0 & w0 & Hloop & -> & Hr).
  destruct r0 as [n|e|]; try discriminate. simpl in Hr. injection Hr as ->.
  apply rowLoop_effect in Hloop as (consumed & outs & -> & _ & _ & Hn & _ & Hfl & _);
    [|lia|lia].
  rewrite length_app in Hmax. cbn [HeaderLines Lines Flush flushes].
  rewrite wrap_small by (unfold minInt, maxInt in *; destruct processHeader; lia).
  replace ((if processHeader then 1 else 0) + (n - (if processHeader then 1 else 0)))
    with n by lia.
  change (0 / 100) with 0 in Hfl. lia.
Qed.

Lemma flushes_every_hundred_rows_witness :
  Z.of_nat (flushes (mkWriter [["h"]; ["a"]; ["c"]]%string 1)) =
  Z.of_nat (flushes emptyWriter)
  + (HeaderLines (mkResult 1 2) + Lines (mkResult 1 2)) / 100 + 1.
Proof.
  apply (flushes_every_hundred_rows asciiLibrary listOrder noFault oneColumn
           [Record_ ["h"; "x"]; Record_ ["a"; "b"]; Record_ ["c"]]%string
           emptyWriter true (-1) (mkResult 1 2) []).
  - vm_compute. discriminate.
  - vm_compute. reflexivity.
Defined.

Lemma columnsLoop_ext (L : Library) t t' context :
  Columns t = Columns t' ->
  forall keys output,
    columnsLoop L t keys context output = columnsLoop L t' keys context output.
Proof.
  intros Hc. induction keys as [|c keys IH]; intros output; simpl; [reflexivity|].
  rewrite Hc. destruct (processRecipe L "column" _ context); simpl; auto.
Qed.

(** X24. Header recipes run for the first row of a run with header
    processing and for no other row: on every other row, and on every
    row when header processing is off, the step is the same whatever the
    header recipes are. *)
Theorem headers_only_on_header_row (L : Library) (R : RangeOrder) (wf : WriteFault)
    t headers' processHeader numColumns row linesRead writer :
  processHeader && (linesRead =? 1) = false ->
  processRow L R wf (setHeaders t headers') processHeader numColumns row linesRead
    writer
  = processRow L R wf t processHeader numColumns row linesRead writer.
Proof.
  intros Hoff. unfold processRow, headerBranch, dataBranch. rewrite Hoff.
  cbn [VariableOrder Columns setHeaders].
  rewrite (processVariables_ext L (setHeaders t headers') t) by reflexivity.
  destruct (processVariables L t (VariableOrder t) (newContext row linesRead));
    try reflexivity.
  cbn [orKeep].
  destruct (negb processHeader || (1 <? linesRead)); [|reflexivity].
  rewrite (columnsLoop_ext L (setHeaders t headers') t) by reflexivity.
  reflexivity.
Qed.

Lemma headers_only_on_header_row_witness :
  processRow asciiLibrary listOrder noFault (setHeaders threeColumns ∅) true 3
    ["a"]%string 2 emptyWriter
  = processRow asciiLibrary listOrder noFault threeColumns true 3
      ["a"]%string 2 emptyWriter.
Proof.
  apply (headers_only_on_header_row asciiLibrary listOrder noFault threeColumns ∅
           true 3 ["a"]%string 2 emptyWriter).
  reflexivity.
Defined.

(** X25. A [join] of the placeholder at the end of a pipe does nothing:
    it arms [Join] for an operation that never comes, and the recipe
    returns what it returns without it. *)
Theorem trailing_join_placeholder_is_dropped (L : Library) recipeType out comment
    context pipe o a rest :
  ToLower L (Name o) = "join"%string ->
  Arguments o = a :: rest ->
  Argument_Type a = Placeholder ->
  processRecipe L recipeType (mkRecipe out (pipe ++ [o]) comment) context
  = processRecipe L recipeType (mkRecipe out pipe comment) context.
Proof.
  intros Hn Ha Hp. unfold processRecipe, errorPrefixOf. cbn [Pipe Recipe_Output].
  rewrite runPipe_app.
  destruct (runPipe L _ context pipe initialState) as [st|e|]; simpl;
    try reflexivity.
  erewrite join_placeholder_step by eauto. reflexivity.
Qed.

Lemma trailing_join_placeholder_is_dropped_witness :
  processRecipe asciiLibrary "column"
    (mkRecipe (getOutputForColumn "1")
       ([opValue (colArg "1")] ++ [opJoin getPlaceholderArg]) "") rowAB
  = processRecipe asciiLibrary "column"
      (mkRecipe (getOutputForColumn "1") [opValue (colArg "1")] "") rowAB.
Proof.
  apply (trailing_join_placeholder_is_dropped asciiLibrary "column" _ "" rowAB
           [opValue (colArg "1")] (opJoin getPlaceholderArg) getPlaceholderArg []);
    reflexivity.
Defined.
